(** * Inline diff-review engine of the Base44 Sync editor extension

    A shallow embedding of [markChanges], [refreshDecorationsFor] and the
    [extension.acceptChange] / [extension.rejectChange] commands, together
    with the part of the editor host API these functions call
    ([vscode.Position], [vscode.Range], [TextDocument.lineAt],
    [TextEditor.edit]); of the loop of the pull command, in the version
    that marks the changes and in the first version, which overwrites; and
    of the remote path the deploy command sends.

    Conventions of the embedding:
    - JS numbers that hold line numbers, columns and ids are [Z];
    - JS strings are [string]; the only line terminator of a document is
      the line feed (the pull command normalises CRLF before diffing);
    - a thrown exception is the [Throw] constructor of [Result];
    - the process-wide variables [nextChangeId] and [pendingByDoc] are
      fields of [State], threaded explicitly through every operation. *)

From Stdlib Require Import ZArith Lia Ascii String Sorted DecimalString.
From stdpp Require Import base option list gmap strings.

Local Open Scope Z_scope.

(** ** Texts *)

Module Text.

Definition LF : ascii := Ascii.ascii_of_nat 10.
Definition CR : ascii := Ascii.ascii_of_nat 13.
Definition SP : ascii := Ascii.ascii_of_nat 32.
Definition TAB : ascii := Ascii.ascii_of_nat 9.

Definition nl : string := String LF EmptyString.

(** [s.split('\n')]: the pieces between line feeds; never empty. *)
Fixpoint split_nl (s : string) : list string :=
  match s with
  | EmptyString => [EmptyString]
  | String c s' =>
      if Ascii.eqb c LF then EmptyString :: split_nl s'
      else match split_nl s' with
           | l :: ls => String c l :: ls
           | [] => [String c EmptyString]
           end
  end.

(** [s.endsWith('\n')]. *)
Fixpoint endsWith_nl (s : string) : bool :=
  match s with
  | EmptyString => false
  | String c s' =>
      match s' with
      | EmptyString => Ascii.eqb c LF
      | String _ _ => endsWith_nl s'
      end
  end.

(** [s.split('\n').length - 1], the number of line feeds of [s]. *)
Definition newlines (s : string) : Z :=
  Z.of_nat (length (split_nl s)) - 1.

(** [s.split('\n').length - (s.endsWith('\n') ? 1 : 0)], the number of
    editor lines a diff segment stands for. *)
Definition segmentLines (s : string) : Z :=
  Z.of_nat (length (split_nl s)) - (if endsWith_nl s then 1 else 0).

Fixpoint take_s (n : nat) (s : string) : string :=
  match n, s with
  | S n', String c s' => String c (take_s n' s')
  | _, _ => EmptyString
  end.

Fixpoint drop_s (n : nat) (s : string) : string :=
  match n, s with
  | S n', String _ s' => drop_s n' s'
  | _, _ => s
  end.

(** Every line followed by a line feed: [unlines ["a";"b"]] is the text
    ["a\nb\n"]. *)
Fixpoint unlines (ls : list string) : string :=
  match ls with
  | [] => EmptyString
  | l :: ls' => l +:+ nl +:+ unlines ls'
  end.

(** The two replacements of the pull command's [normalize]:
    [/\r\n/g -> "\n"] and then [/[ \t]+\n/g -> "\n"]. *)
Fixpoint replace_crlf (s : string) : string :=
  match s with
  | EmptyString => EmptyString
  | String c s' =>
      match s' with
      | String d s'' =>
          if Ascii.eqb c CR && Ascii.eqb d LF
          then String LF (replace_crlf s'')
          else String c (replace_crlf s')
      | EmptyString => String c EmptyString
      end
  end.

Definition is_blank (c : ascii) : bool := Ascii.eqb c SP || Ascii.eqb c TAB.

Definition starts_nl (s : string) : bool :=
  match s with
  | String c _ => Ascii.eqb c LF
  | EmptyString => false
  end.

Fixpoint strip_blank_before_nl (s : string) : string :=
  match s with
  | EmptyString => EmptyString
  | String c s' =>
      let r := strip_blank_before_nl s' in
      if is_blank c && starts_nl r then r else String c r
  end.

Definition normalize (content : string) : string :=
  strip_blank_before_nl (replace_crlf content).

End Text.

(** ** Exceptions *)

Inductive Error : Type :=
| IllegalLine (n : Z)            (* TextDocument.lineAt: illegal value for line *)
| IllegalArgument                (* new Position: negative line or character *)
| FileNotFound                   (* workspace.openTextDocument rejected *)
| EditFailed.                    (* TextEditor.edit rejected *)

Inductive Result (A : Type) : Type :=
| Ok (a : A)
| Throw (e : Error).
Arguments Ok {A} a.
Arguments Throw {A} e.

#[global] Instance Result_ret : MRet Result := fun A a => Ok a.
#[global] Instance Result_bind : MBind Result := fun A B f m =>
  match m with
  | Ok a => f a
  | Throw e => Throw e
  end.

(** ** Host API: positions, ranges, documents

    The editor host is not code of the extension. The definitions of this
    part follow the documented behaviour of the API objects the extension
    calls: positions refuse negative components, a range orders its two
    positions, [lineAt] refuses a line outside the document, and an edit
    acts on the offsets of its clamped positions. *)

Record Position : Type := mkPos { line : Z; character : Z }.

Record Range : Type := mkRng { start : Position; end_ : Position }.

#[global] Instance Position_eq_dec : EqDecision Position.
Proof. solve_decision. Defined.
#[global] Instance Range_eq_dec : EqDecision Range.
Proof. solve_decision. Defined.

(** [new vscode.Position(line, character)] refuses negative arguments. *)
Definition newPosition (l c : Z) : Result Position :=
  if (l <? 0) || (c <? 0) then Throw IllegalArgument else Ok (mkPos l c).

Definition isBefore (a b : Position) : bool :=
  (line a <? line b) || ((line a =? line b) && (character a <? character b)).

Definition isBeforeOrEqual (a b : Position) : bool :=
  (line a <? line b) || ((line a =? line b) && (character a <=? character b)).

(** [new vscode.Range(start, end)]. The API documents: "If [start] is not
    before or equal to [end], the values will be swapped." *)
Definition newRange (a b : Position) : Range :=
  if isBefore a b then mkRng a b else mkRng b a.

(** [new vscode.Range(startLine, startCharacter, endLine, endCharacter)]. *)
Definition newRange4 (sl sc el ec : Z) : Result Range :=
  a ← newPosition sl sc;
  b ← newPosition el ec;
  mret (newRange a b).

(** The class invariant of [vscode.Range]. *)
Definition range_wf (r : Range) : Prop :=
  isBeforeOrEqual (start r) (end_ r) = true
  /\ 0 <= line (start r) /\ 0 <= character (start r)
  /\ 0 <= line (end_ r) /\ 0 <= character (end_ r).

Module TextLine.
Record t : Type := mk {
  lineNumber : Z;
  text : string;
  range : Range;
  rangeIncludingLineBreak : Range
}.
End TextLine.

(** A document is its text; its lines are the pieces between line feeds. *)
Abbreviation Document := string (only parsing).

Definition doc_lines (doc : Document) : list string := Text.split_nl doc.

Definition lineCount (doc : Document) : Z := Z.of_nat (length (doc_lines doc)).

Definition len (s : string) : Z := Z.of_nat (String.length s).

(** [document.lineAt(n)]: throws outside [0 .. lineCount - 1]; the range
    including the line break ends at the start of the next line, except on
    the last line, which has no line break. *)
Definition lineAt (doc : Document) (n : Z) : Result TextLine.t :=
  if (n <? 0) || (lineCount doc <=? n) then Throw (IllegalLine n)
  else
    match doc_lines doc !! Z.to_nat n with
    | None => Throw (IllegalLine n)
    | Some l =>
        let rng := mkRng (mkPos n 0) (mkPos n (len l)) in
        Ok (TextLine.mk n l rng
              (if n <? lineCount doc - 1
               then mkRng (mkPos n 0) (mkPos (n + 1) 0)
               else rng))
    end.

(** Offset of a position, after the host's clamping of positions that lie
    beyond the end of a line or of the document. *)
Fixpoint offset_in (ls : list string) (l : nat) (c : nat) : nat :=
  match ls with
  | [] => 0%nat
  | x :: ls' =>
      match l with
      | O => Nat.min c (String.length x)
      | S l' =>
          match ls' with
          | [] => String.length x
          | _ :: _ => (S (String.length x) + offset_in ls' l' c)%nat
          end
      end
  end.

Definition offsetAt (doc : Document) (p : Position) : nat :=
  offset_in (doc_lines doc) (Z.to_nat (line p)) (Z.to_nat (character p)).

(** The three operations of a [TextEditorEdit] builder. *)
Inductive Edit : Type :=
| EditDelete (r : Range)
| EditReplace (r : Range) (t : string)
| EditInsert (p : Position) (t : string).

Definition spliceText (doc : Document) (from to : nat) (t : string) : Document :=
  Text.take_s from doc +:+ t +:+ Text.drop_s to doc.

Definition applyEdit (doc : Document) (e : Edit) : Document :=
  match e with
  | EditDelete r => spliceText doc (offsetAt doc (start r)) (offsetAt doc (end_ r)) ""
  | EditReplace r t => spliceText doc (offsetAt doc (start r)) (offsetAt doc (end_ r)) t
  | EditInsert p t => spliceText doc (offsetAt doc p) (offsetAt doc p) t
  end.

(** ** Data model of the review engine *)

Inductive ChangeKind : Type := Added | Removed | Changed.

#[global] Instance ChangeKind_eq_dec : EqDecision ChangeKind.
Proof. solve_decision. Defined.

Module PendingChange.
Record t : Type := mk {
  id : Z;
  kind : ChangeKind;
  range : Range;
  remoteText : string
}.
End PendingChange.

#[global] Instance PendingChange_eq_dec : EqDecision PendingChange.t.
Proof. solve_decision. Defined.

(** One segment of the line differ's output ([Diff.ChangeObject]). *)
Module Diff.
Record ChangeObject : Type := mk {
  value : string;
  added : bool;
  removed : bool
}.

Definition equal (v : string) : ChangeObject := mk v false false.
Definition add (v : string) : ChangeObject := mk v true false.
Definition remove (v : string) : ChangeObject := mk v false true.
End Diff.

(** [makeHover(ch, docUri)]: the remote text shown verbatim and the two
    command links, each carrying the document uri and the change id. *)
Record Hover : Type := mkHover {
  hoverRemote : string;
  hoverUri : string;
  hoverId : Z
}.

Definition makeHover (ch : PendingChange.t) (docUri : string) : Hover :=
  mkHover (PendingChange.remoteText ch) docUri (PendingChange.id ch).

Record DecorationOptions : Type := mkDeco {
  decoRange : Range;
  hoverMessage : Hover
}.

Record Decorations : Type := mkDecos {
  removedDecos : list DecorationOptions;
  changedDecos : list DecorationOptions;
  addedDecos : list DecorationOptions
}.

(** Process state: the two module-level variables of the extension, and the
    part of the host the commands read and write. *)
Record State : Type := mkState {
  nextChangeId : Z;
  pendingByDoc : gmap string (list PendingChange.t);
  documents : gmap string Document;
  visibleTextEditors : gset string;
  painted : gmap string Decorations;
  infoMessages : list string;
  consoleErrors : list Error
}.

Definition set_pending (f : gmap string (list PendingChange.t) ->
                            gmap string (list PendingChange.t)) (st : State) : State :=
  mkState (nextChangeId st) (f (pendingByDoc st)) (documents st)
          (visibleTextEditors st) (painted st) (infoMessages st) (consoleErrors st).

Definition set_document (uri : string) (doc : Document) (st : State) : State :=
  mkState (nextChangeId st) (pendingByDoc st) (<[uri := doc]> (documents st))
          (visibleTextEditors st) (painted st) (infoMessages st) (consoleErrors st).

Definition show_editor (uri : string) (st : State) : State :=
  mkState (nextChangeId st) (pendingByDoc st) (documents st)
          ({[uri]} ∪ visibleTextEditors st) (painted st) (infoMessages st)
          (consoleErrors st).

Definition set_decorations (uri : string) (d : Decorations) (st : State) : State :=
  mkState (nextChangeId st) (pendingByDoc st) (documents st)
          (visibleTextEditors st) (<[uri := d]> (painted st)) (infoMessages st)
          (consoleErrors st).

Definition show_information (msg : string) (st : State) : State :=
  mkState (nextChangeId st) (pendingByDoc st) (documents st)
          (visibleTextEditors st) (painted st) (infoMessages st ++ [msg])
          (consoleErrors st).

Definition console_error (e : Error) (st : State) : State :=
  mkState (nextChangeId st) (pendingByDoc st) (documents st)
          (visibleTextEditors st) (painted st) (infoMessages st)
          (consoleErrors st ++ [e]).

Definition set_nextChangeId (n : Z) (st : State) : State :=
  mkState n (pendingByDoc st) (documents st)
          (visibleTextEditors st) (painted st) (infoMessages st) (consoleErrors st).

(** The pending list of a document, the empty list when it has no entry. *)
Definition pendingOf (st : State) (uri : string) : list PendingChange.t :=
  default [] (pendingByDoc st !! uri).

(** ** AnnotationRenderer: the display transform *)

(** The trimming of a range that ends at column 0: the display range ends
    at the end of the previous line, which is asked of the document.
    [belowTopOnly] is the extra test [ch.range.end.line > 0] that one
    revision of [markChanges] has in its [added] branch. *)
Definition trimRange (belowTopOnly : bool) (doc : Document) (r : Range) : Result Range :=
  if (character (end_ r) =? 0) && (negb belowTopOnly || (0 <? line (end_ r))) then
    tl ← lineAt doc (line (end_ r) - 1);
    p ← newPosition (line (end_ r) - 1) (character (end_ (TextLine.range tl)));
    mret (newRange (start r) p)
  else mret r.

Definition pushDeco (k : ChangeKind) (d : DecorationOptions) (ds : Decorations) : Decorations :=
  match k with
  | Removed => mkDecos (d :: removedDecos ds) (changedDecos ds) (addedDecos ds)
  | Changed => mkDecos (removedDecos ds) (d :: changedDecos ds) (addedDecos ds)
  | Added => mkDecos (removedDecos ds) (changedDecos ds) (d :: addedDecos ds)
  end.

Definition noDecos : Decorations := mkDecos [] [] [].

(** The loop of [refreshDecorationsFor]. *)
Fixpoint renderAll (doc : Document) (docUri : string) (pending : list PendingChange.t)
  : Result Decorations :=
  match pending with
  | [] => mret noDecos
  | ch :: rest =>
      decoRange ← trimRange false doc (PendingChange.range ch);
      ds ← renderAll doc docUri rest;
      mret (pushDeco (PendingChange.kind ch) (mkDeco decoRange (makeHover ch docUri)) ds)
  end.

Definition refreshDecorationsFor (st : State) (docUri : string) : Result State :=
  if decide (docUri ∈ visibleTextEditors st) then
    match documents st !! docUri with
    | None => mret st
    | Some doc =>
        ds ← renderAll doc docUri (pendingOf st docUri);
        mret (set_decorations docUri ds st)
    end
  else mret st.

(** The repaint at the end of accept and reject: the stored ranges, as they
    are, grouped by kind. *)
Definition plainDecos (docUri : string) (pending : list PendingChange.t) : Decorations :=
  let deco c := mkDeco (PendingChange.range c) (makeHover c docUri) in
  let of_kind k := filter (fun c => PendingChange.kind c = k) pending in
  mkDecos (deco <$> of_kind Removed) (deco <$> of_kind Changed) (deco <$> of_kind Added).

(** ** ChangeSetBuilder: [markChanges] *)

(** The source file carries the engine twice; the copies differ in one test
    of the [added] branch of [markChanges]. *)
Inductive Revision : Type := TrimAtTop | TrimBelowTop.

Definition belowTopOnly (rev : Revision) : bool :=
  match rev with TrimAtTop => false | TrimBelowTop => true end.

Record Marked : Type := mkMarked {
  markedPending : list PendingChange.t;
  markedDecos : Decorations;
  markedNextId : Z
}.

Definition emit (ch : PendingChange.t) (d : DecorationOptions) (m : Marked) : Marked :=
  mkMarked (ch :: markedPending m)
           (pushDeco (PendingChange.kind ch) d (markedDecos m))
           (markedNextId m).

(** The range of a removed block of [n] lines that starts on line [li]:
    from [(li, 0)] to the end, line break included, of line [li + n - 1]. *)
Definition blockRange (doc : Document) (li n : Z) : Result Range :=
  a ← newPosition li 0;
  tl ← lineAt doc (li + n - 1);
  mret (newRange a (end_ (TextLine.rangeIncludingLineBreak tl))).

(** The record and the decoration of a removed block, alone ([Removed],
    no remote text) or merged with the added segment after it ([Changed],
    the added segment's text). *)
Definition blockChange (doc : Document) (docUri : string) (li nextId : Z)
    (k : ChangeKind) (removedText remote : string)
  : Result (PendingChange.t * DecorationOptions) :=
  rng ← blockRange doc li (Text.segmentLines removedText);
  let ch := PendingChange.mk nextId k rng remote in
  decoRange ← trimRange false doc rng;
  mret (ch, mkDeco decoRange (makeHover ch docUri)).

(** The record and the decoration of an added segment: the zero-width
    range at [(li, 0)]. *)
Definition insertChange (rev : Revision) (doc : Document) (docUri : string)
    (li nextId : Z) (addedText : string)
  : Result (PendingChange.t * DecorationOptions) :=
  rng ← newRange4 li 0 li 0;
  let ch := PendingChange.mk nextId Added rng addedText in
  decoRange ← trimRange (belowTopOnly rev) doc rng;
  mret (ch, mkDeco decoRange (makeHover ch docUri)).

(** The segment walk. [li] is the local line index, [nextId] the local copy
    of the id counter; the records of the segments still to come follow the
    record of the segment at hand. *)
Fixpoint walk (rev : Revision) (doc : Document) (docUri : string)
    (diffs : list Diff.ChangeObject) (li nextId : Z) : Result Marked :=
  match diffs with
  | [] => mret (mkMarked [] noDecos nextId)
  | part :: rest =>
      let alone : Result Marked :=
        if Diff.removed part then
          cd ← blockChange doc docUri li nextId Removed (Diff.value part) "";
          m ← walk rev doc docUri rest
                (li + Text.segmentLines (Diff.value part)) (nextId + 1);
          mret (emit cd.1 cd.2 m)
        else if Diff.added part then
          cd ← insertChange rev doc docUri li nextId (Diff.value part);
          m ← walk rev doc docUri rest li (nextId + 1);
          mret (emit cd.1 cd.2 m)
        else
          walk rev doc docUri rest (li + Text.segmentLines (Diff.value part)) nextId in
      match rest with
      | next :: rest' =>
          if Diff.removed part && Diff.added next then
            cd ← blockChange doc docUri li nextId Changed
                   (Diff.value part) (Diff.value next);
            m ← walk rev doc docUri rest'
                  (li + Text.segmentLines (Diff.value part)) (nextId + 1);
            mret (emit cd.1 cd.2 m)
          else alone
      | [] => alone
      end
  end.

(** [markChanges(editor, diffs)], [docUri] being the uri of the editor's
    document. The counter, the store and the decorations are written after
    the walk: a walk that throws leaves them as they were. *)
Definition markChanges (rev : Revision) (st : State) (docUri : string)
    (diffs : list Diff.ChangeObject) : Result State :=
  match documents st !! docUri with
  | None => Throw FileNotFound
  | Some doc =>
      m ← walk rev doc docUri diffs 0 (nextChangeId st);
      mret (set_decorations docUri (markedDecos m)
              (set_pending (insert docUri (markedPending m))
                 (set_nextChangeId (markedNextId m) st)))
  end.

(** ** ChangeResolver: accept and reject *)

(** What the host answers to the one [editor.edit] call of accept: the edit
    is applied (the promise resolves to [true]), it is not applied (the
    promise resolves to [false]), or the call is rejected (the promise
    rejects, which the command's [catch] receives). *)
Inductive EditOutcome : Type := EditApplied | EditNotApplied | EditRejected.

(** [pending.findIndex((ch) => ch.id === id)], [None] for [-1]. *)
Definition findIndex (id : Z) (pending : list PendingChange.t) : option nat :=
  fst <$> list_find (fun ch => PendingChange.id ch = id) pending.

(** The line delta of accept, branch by branch as the command computes
    it from the stored range and the remote text. *)
Definition lineDelta (ch : PendingChange.t) : Z :=
  let r := PendingChange.range ch in
  match PendingChange.kind ch with
  | Removed =>
      let removedLinesCount := line (end_ r) - line (start r) + 1 in
      - removedLinesCount
  | Changed =>
      let removedLinesCount := line (end_ r) - line (start r) in
      let addedLinesCount := Text.newlines (PendingChange.remoteText ch) in
      addedLinesCount - removedLinesCount
  | Added => Text.newlines (PendingChange.remoteText ch)
  end.

(** The edit the callback of [editor.edit] builds. *)
Definition editOf (ch : PendingChange.t) : Edit :=
  let r := PendingChange.range ch in
  match PendingChange.kind ch with
  | Removed => EditDelete r
  | Changed => EditReplace r (PendingChange.remoteText ch)
  | Added => EditInsert (start r) (PendingChange.remoteText ch)
  end.

Definition withRange (r : Range) (ch : PendingChange.t) : PendingChange.t :=
  PendingChange.mk (PendingChange.id ch) (PendingChange.kind ch) r
                   (PendingChange.remoteText ch).

(** The range a later change gets from the re-anchoring loop. *)
Definition shiftedRange (delta : Z) (r : Range) : Result Range :=
  newRange4 (line (start r) + delta) (character (start r))
            (line (end_ r) + delta) (character (end_ r)).

(** The re-anchoring loop over the changes after the resolved one. Each
    record is updated in place, so when a range constructor throws, the
    records before it stay re-anchored: the list as it stands and the
    exception are both returned. *)
Fixpoint reanchor (delta : Z) (others : list PendingChange.t)
  : list PendingChange.t * option Error :=
  match others with
  | [] => ([], None)
  | other :: rest =>
      match shiftedRange delta (PendingChange.range other) with
      | Throw e => (other :: rest, Some e)
      | Ok r =>
          let res := reanchor delta rest in
          (withRange r other :: res.1, res.2)
      end
  end.

(** Store update after a splice: the entry goes when the list is empty. *)
Definition storeList (docUri : string) (pending : list PendingChange.t)
    (m : gmap string (list PendingChange.t)) : gmap string (list PendingChange.t) :=
  match pending with
  | [] => delete docUri m
  | _ :: _ => <[docUri := pending]> m
  end.

Definition allAccepted : string := "All changes accepted for this file.".

(** [extension.acceptChange]. The awaited host calls are taken as one
    step: no other command runs in between. *)
Definition accept (host : EditOutcome) (st : State) (docUri : string) (id : Z) : State :=
  match pendingByDoc st !! docUri with
  | None => st
  | Some pending =>
      match findIndex id pending with
      | None => st
      | Some idx =>
          match pending !! idx, documents st !! docUri with
          | None, _ => st
          | Some _, None => console_error FileNotFound st
          | Some ch, Some doc =>
              let st1 := show_editor docUri st in
              let delta := lineDelta ch in
              match host with
              | EditRejected => console_error EditFailed st1
              | _ =>
                  let st2 :=
                    match host with
                    | EditApplied => set_document docUri (applyEdit doc (editOf ch)) st1
                    | _ => st1
                    end in
                  let res := reanchor delta (drop (S idx) pending) in
                  let anchored := take (S idx) pending ++ res.1 in
                  match res.2 with
                  | Some e =>
                      console_error e (set_pending (insert docUri anchored) st2)
                  | None =>
                      let remaining := delete idx anchored in
                      let st3 := set_pending (storeList docUri remaining) st2 in
                      let st4 := set_decorations docUri (plainDecos docUri remaining) st3 in
                      match remaining with
                      | [] => show_information allAccepted st4
                      | _ :: _ => st4
                      end
                  end
              end
          end
      end
  end.

(** [extension.rejectChange]. *)
Definition reject (st : State) (docUri : string) (id : Z) : State :=
  match pendingByDoc st !! docUri with
  | None => st
  | Some pending =>
      match findIndex id pending with
      | None => st
      | Some idx =>
          let remaining := delete idx pending in
          let st1 := set_pending (storeList docUri remaining) st in
          if decide (docUri ∈ visibleTextEditors st1)
          then set_decorations docUri (plainDecos docUri remaining) st1
          else st1
      end
  end.

(** ** A process: commands run one after the other *)

Inductive Command : Type :=
| Pull (rev : Revision) (docUri : string) (diffs : list Diff.ChangeObject)
| AcceptChange (host : EditOutcome) (docUri : string) (id : Z)
| RejectChange (docUri : string) (id : Z)
| Refresh (docUri : string).

(** One command; the ids it assigned to the records it stored. [Pull] is
    the body of the pull command for one file: when the diff has a segment
    that is added or removed, the document is opened and shown and then
    marked. A [markChanges] that throws stores nothing and leaves the
    counter as it was; the command's [catch] logs the exception. A refresh
    that throws (it has no [catch]) leaves the state as it was. *)
Definition step (st : State) (c : Command) : State * list Z :=
  match c with
  | Pull rev docUri diffs =>
      if existsb (fun c => Diff.added c || Diff.removed c) diffs then
        match documents st !! docUri with
        | None => (console_error FileNotFound st, [])
        | Some _ =>
            let st1 := show_editor docUri st in
            match markChanges rev st1 docUri diffs with
            | Ok st' => (st', PendingChange.id <$> pendingOf st' docUri)
            | Throw e => (console_error e st1, [])
            end
        end
      else (st, [])
  | AcceptChange host docUri id => (accept host st docUri id, [])
  | RejectChange docUri id => (reject st docUri id, [])
  | Refresh docUri =>
      match refreshDecorationsFor st docUri with
      | Ok st' => (st', [])
      | Throw _ => (st, [])
      end
  end.

(** A run, with the ids assigned along it, oldest first. *)
Fixpoint run (st : State) (cs : list Command) : State * list Z :=
  match cs with
  | [] => (st, [])
  | c :: cs' =>
      let r := step st c in
      let r' := run r.1 cs' in
      (r'.1, r.2 ++ r'.2)
  end.

(** The state of a fresh process: [let nextChangeId = 1] and an empty
    store; [docs] are the workspace files. *)
Definition initial (docs : gmap string Document) : State :=
  mkState 1 ∅ docs ∅ ∅ [] [].

(** ** The differ's contract

    [Diff.diffLines] is a library the extension calls; its output is a
    parameter of the builder. *)

(** What the builder relies on from [Diff.diffLines old new]: the segments
    that are not added tile the old text, those that are not removed tile
    the new text. *)
Fixpoint oldText (diffs : list Diff.ChangeObject) : string :=
  match diffs with
  | [] => ""
  | part :: rest =>
      if Diff.added part then oldText rest else Diff.value part +:+ oldText rest
  end.

Fixpoint newText (diffs : list Diff.ChangeObject) : string :=
  match diffs with
  | [] => ""
  | part :: rest =>
      if Diff.removed part then newText rest else Diff.value part +:+ newText rest
  end.

Definition tiles (old new : string) (diffs : list Diff.ChangeObject) : Prop :=
  oldText diffs = old /\ newText diffs = new.

(** The lines the segment walk consumes: the segment lines of the segments
    that are not added. *)
Fixpoint oldLines (diffs : list Diff.ChangeObject) : Z :=
  match diffs with
  | [] => 0
  | part :: rest =>
      if Diff.added part then oldLines rest
      else Text.segmentLines (Diff.value part) + oldLines rest
  end.

Definition hasOld (diffs : list Diff.ChangeObject) : bool :=
  existsb (fun part => negb (Diff.added part)) diffs.

(** A line differ cuts at line ends: no segment is empty, none is both
    added and removed, and a segment of the old text ends with a line feed
    unless it is the last one of the old text. *)
Fixpoint lineWise (diffs : list Diff.ChangeObject) : Prop :=
  match diffs with
  | [] => True
  | part :: rest =>
      Diff.value part <> ""
      /\ Diff.added part && Diff.removed part = false
      /\ (Diff.added part = false -> hasOld rest = true ->
          Text.endsWith_nl (Diff.value part) = true)
      /\ lineWise rest
  end.

(** The first segment is an insertion above the first line. *)
Definition startsWithAdded (diffs : list Diff.ChangeObject) : bool :=
  match diffs with
  | part :: _ => Diff.added part
  | [] => false
  end.


(** ** Accepting a whole list *)



(** The number of line feeds, as a natural number. *)
Definition feeds (s : string) : nat := Z.to_nat (Text.newlines s).

(** ** Ordering of ranges *)

(** Two records in list order: the first ends before or where the second
    starts (ranges are half-open), and starts on no later line. *)
Definition precedes (a b : PendingChange.t) : Prop :=
  isBeforeOrEqual (end_ (PendingChange.range a)) (start (PendingChange.range b)) = true
  /\ line (start (PendingChange.range a)) <= line (start (PendingChange.range b)).

Definition ordered (pending : list PendingChange.t) : Prop :=
  forall (i j : nat) (a b : PendingChange.t),
    pending !! i = Some a -> pending !! j = Some b -> (i < j)%nat -> precedes a b.

(** A position of the half-open range [r]. *)
Definition inRange (p : Position) (r : Range) : Prop :=
  isBeforeOrEqual (start r) p = true /\ isBefore p (end_ r) = true.

Definition overlap (r1 r2 : Range) : Prop :=
  exists p, inRange p r1 /\ inRange p r2.

(** The record lies at or below line [li]. *)
Definition below (li : Z) (c : PendingChange.t) : Prop :=
  range_wf (PendingChange.range c) /\ li <= line (start (PendingChange.range c)).

(** The end of line [n], line break included. *)
Definition lineEnd (doc : Document) (n : Z) (l : string) : Position :=
  if n <? lineCount doc - 1 then mkPos (n + 1) 0 else mkPos n (len l).

(** ** The segment walk, case by case *)

Inductive WalkCase (rev : Revision) (doc : Document) (docUri : string)
    (part : Diff.ChangeObject) (rest : list Diff.ChangeObject)
    (li nextId : Z) (m : Marked) : Prop :=
| walk_changed (next : Diff.ChangeObject) (rest' : list Diff.ChangeObject)
    (cd : PendingChange.t * DecorationOptions) (m' : Marked) :
    rest = next :: rest' ->
    Diff.removed part = true -> Diff.added next = true ->
    blockChange doc docUri li nextId Changed (Diff.value part) (Diff.value next) = Ok cd ->
    walk rev doc docUri rest' (li + Text.segmentLines (Diff.value part)) (nextId + 1) = Ok m' ->
    m = emit cd.1 cd.2 m' ->
    WalkCase rev doc docUri part rest li nextId m
| walk_removed (cd : PendingChange.t * DecorationOptions) (m' : Marked) :
    Diff.removed part = true ->
    blockChange doc docUri li nextId Removed (Diff.value part) "" = Ok cd ->
    walk rev doc docUri rest (li + Text.segmentLines (Diff.value part)) (nextId + 1) = Ok m' ->
    m = emit cd.1 cd.2 m' ->
    WalkCase rev doc docUri part rest li nextId m
| walk_added (cd : PendingChange.t * DecorationOptions) (m' : Marked) :
    Diff.removed part = false -> Diff.added part = true ->
    insertChange rev doc docUri li nextId (Diff.value part) = Ok cd ->
    walk rev doc docUri rest li (nextId + 1) = Ok m' ->
    m = emit cd.1 cd.2 m' ->
    WalkCase rev doc docUri part rest li nextId m
| walk_unchanged :
    Diff.removed part = false -> Diff.added part = false ->
    walk rev doc docUri rest (li + Text.segmentLines (Diff.value part)) nextId = Ok m ->
    WalkCase rev doc docUri part rest li nextId m.

(** ** Re-anchoring *)

(** A range moved down by [delta] lines, columns kept. *)
Definition shiftLines (delta : Z) (r : Range) : Range :=
  mkRng (mkPos (line (start r) + delta) (character (start r)))
        (mkPos (line (end_ r) + delta) (character (end_ r))).

Definition shift (delta : Z) (c : PendingChange.t) : PendingChange.t :=
  withRange (shiftLines delta (PendingChange.range c)) c.

(** The record can be moved by [delta]: its range is a legal one and the
    moved start line is not negative. *)
Definition movable (delta : Z) (c : PendingChange.t) : Prop :=
  range_wf (PendingChange.range c)
  /\ 0 <= line (start (PendingChange.range c)) + delta.

(** ** Lines covered by a range *)

(** Follows the spec's words: the spanned lines of a range are the full
    document lines it covers, each with its trailing line break. Line [n]
    is covered when it starts inside the half-open range and its end, line
    break included, does not pass the range's end. *)
Definition coversLine (doc : Document) (r : Range) (n : Z) : bool :=
  match lineAt doc n with
  | Ok tl =>
      isBeforeOrEqual (start r) (start (TextLine.rangeIncludingLineBreak tl))
      && isBefore (start (TextLine.rangeIncludingLineBreak tl)) (end_ r)
      && isBeforeOrEqual (end_ (TextLine.rangeIncludingLineBreak tl)) (end_ r)
  | Throw _ => false
  end.

Definition spannedLines (doc : Document) (r : Range) : Z :=
  Z.of_nat (length (filter (fun n => coversLine doc r n = true) (seqZ 0 (lineCount doc)))).

(** Follows the spec's words: the line delta of accept, from the spanned
    lines and the number of line feeds of the remote text. *)
Definition lineDelta_spec (doc : Document) (ch : PendingChange.t) : Z :=
  let spanned := spannedLines doc (PendingChange.range ch) in
  match PendingChange.kind ch with
  | Removed => - spanned
  | Changed => Text.newlines (PendingChange.remoteText ch) - (spanned - 1)
  | Added => Text.newlines (PendingChange.remoteText ch)
  end.

(** ** Scenarios *)

Module Scenario.

Definition uri : string := "file:///src/pages/Home.jsx".

(** A fresh process whose workspace holds one file. *)
Definition fresh (doc : Document) : State := initial {[uri := doc]}.

(** Local text of five lines, remote text without its second and fourth
    line; the only common subsequence of three lines is a, c, e. *)
Definition local5 : string := Text.unlines ["a"; "b"; "c"; "d"; "e"].
Definition remote3 : string := Text.unlines ["a"; "c"; "e"].
Definition diffs5 : list Diff.ChangeObject :=
  [Diff.equal (Text.unlines ["a"]); Diff.remove (Text.unlines ["b"]);
   Diff.equal (Text.unlines ["c"]); Diff.remove (Text.unlines ["d"]);
   Diff.equal (Text.unlines ["e"])].

Definition removal1 : PendingChange.t :=
  PendingChange.mk 1 Removed (mkRng (mkPos 1 0) (mkPos 2 0)) "".
Definition removal2 : PendingChange.t :=
  PendingChange.mk 2 Removed (mkRng (mkPos 3 0) (mkPos 4 0)) "".

(** The state after the pull of [diffs5] into a fresh process. *)
Definition reviewing5 : State :=
  mkState 3 {[uri := [removal1; removal2]]} {[uri := local5]} {[uri]}
    {[uri := mkDecos
               [mkDeco (mkRng (mkPos 1 0) (mkPos 1 1)) (mkHover "" uri 1);
                mkDeco (mkRng (mkPos 3 0) (mkPos 3 1)) (mkHover "" uri 2)]
               [] []]}
    [] [].

(** A one-line replacement: local a, b, c against remote a, B, c. *)
Definition local3 : string := Text.unlines ["a"; "b"; "c"].
Definition remoteB : string := Text.unlines ["a"; "B"; "c"].
Definition diffsB : list Diff.ChangeObject :=
  [Diff.equal (Text.unlines ["a"]); Diff.remove (Text.unlines ["b"]);
   Diff.add (Text.unlines ["B"]); Diff.equal (Text.unlines ["c"])].

Definition replacement : PendingChange.t :=
  PendingChange.mk 1 Changed (mkRng (mkPos 1 0) (mkPos 2 0)) (Text.unlines ["B"]).

Definition reviewingB : State :=
  mkState 2 {[uri := [replacement]]} {[uri := local3]} {[uri]}
    {[uri := mkDecos []
               [mkDeco (mkRng (mkPos 1 0) (mkPos 1 1))
                       (mkHover (Text.unlines ["B"]) uri 1)] []]}
    [] [].

(** An insertion above the first line: local a, b, c against remote
    X, a, b, c. *)
Definition diffsTop : list Diff.ChangeObject :=
  [Diff.add (Text.unlines ["X"]); Diff.equal (Text.unlines ["a"; "b"; "c"])].

Definition insertionAtTop : PendingChange.t :=
  PendingChange.mk 1 Added (mkRng (mkPos 0 0) (mkPos 0 0)) (Text.unlines ["X"]).

Definition reviewingTop : State :=
  mkState 2 {[uri := [insertionAtTop]]} {[uri := local3]} {[uri]}
    {[uri := mkDecos [] []
               [mkDeco (mkRng (mkPos 0 0) (mkPos 0 0))
                       (mkHover (Text.unlines ["X"]) uri 1)]]}
    [] [].

(** An insertion below the first line: local a, b, c against remote
    a, X, b, c. *)
Definition diffsMid : list Diff.ChangeObject :=
  [Diff.equal (Text.unlines ["a"]); Diff.add (Text.unlines ["X"]);
   Diff.equal (Text.unlines ["b"; "c"])].

Definition insertionAt1 : PendingChange.t :=
  PendingChange.mk 1 Added (mkRng (mkPos 1 0) (mkPos 1 0)) (Text.unlines ["X"]).

Definition reviewingMid : State :=
  mkState 2 {[uri := [insertionAt1]]} {[uri := local3]} {[uri]}
    {[uri := mkDecos [] []
               [mkDeco (mkRng (mkPos 0 1) (mkPos 1 0))
                       (mkHover (Text.unlines ["X"]) uri 1)]]}
    [] [].

(** A replacement of the last line of a text that does not end with a
    line feed: local a, b against remote a, B. *)
Definition localOpen : string := "a" +:+ Text.nl +:+ "b".

Definition replacementLast : PendingChange.t :=
  PendingChange.mk 1 Changed (mkRng (mkPos 1 0) (mkPos 1 1)) "B".

End Scenario.

(** ** Shapes of texts *)

(** A space or a tab stands directly before a line feed somewhere in [s]:
    a match of [/[ \t]+\n/]. *)
Fixpoint blankBeforeNl (s : string) : bool :=
  match s with
  | EmptyString => false
  | String c s' => (Text.is_blank c && Text.starts_nl s') || blankBeforeNl s'
  end.

(** A carriage return stands directly before a line feed somewhere in [s]:
    a match of [/\r\n/]. *)
Fixpoint hasCRLF (s : string) : bool :=
  match s with
  | EmptyString => false
  | String c s' => (Ascii.eqb c Text.CR && Text.starts_nl s') || hasCRLF s'
  end.

(** ** The deploy command: the remote path of the active file *)

Module Deploy.

Definition DOT : ascii := Ascii.ascii_of_nat 46.
Definition SLASH : ascii := Ascii.ascii_of_nat 47.
Definition BACKSLASH : ascii := Ascii.ascii_of_nat 92.

(** Characters of the class [[^/.]] up to the end of the string. *)
Fixpoint plain (s : string) : bool :=
  match s with
  | EmptyString => true
  | String c s' => negb (Ascii.eqb c SLASH || Ascii.eqb c DOT) && plain s'
  end.

(** A match of [/\.[^/.]+$/] that begins with the first character of [s]:
    a dot, then one character or more of the class, then the end. *)
Definition extensionAt (s : string) : bool :=
  match s with
  | String c (String d t) => Ascii.eqb c DOT && plain (String d t)
  | _ => false
  end.

(** [s.replace(/\.[^/.]+$/, "")]: the leftmost match, which runs to the
    end of the string, is cut off; a string without a match is returned
    as it is. *)
Fixpoint stripExtension (s : string) : string :=
  match s with
  | EmptyString => EmptyString
  | String c s' =>
      if extensionAt s then EmptyString else String c (stripExtension s')
  end.

(** Whether the character stands somewhere in the string. *)
Fixpoint occurs (c : ascii) (s : string) : bool :=
  match s with
  | EmptyString => false
  | String d s' => Ascii.eqb c d || occurs c s'
  end.

(** [s.replaceAll("\\", "/")]. *)
Fixpoint forwardSlashes (s : string) : string :=
  match s with
  | EmptyString => EmptyString
  | String c s' =>
      String (if Ascii.eqb c BACKSLASH then SLASH else c) (forwardSlashes s')
  end.

(** The command comes in two revisions; the later one sends the files
    below [entities] under their name. *)
Inductive Routes : Type := PagesAndComponents | WithEntities.

(** What the [path] module answers for the active file: [path.sep],
    [path.relative(path.join(workspaceFolder, "src"), filePath)],
    [path.basename(filePath)] and [path.basename(filePath, ".json")]. *)
Record ActiveFile : Type := mkActive {
  sep : string;
  relativePath : string;
  basename : string;
  basenameNoJson : string
}.

(** The [file_path] the deploy command sends. *)
Definition apiPath (routes : Routes) (f : ActiveFile) : string :=
  let entities :=
    match routes with
    | WithEntities => String.prefix ("entities" +:+ sep f) (relativePath f)
    | PagesAndComponents => false
    end in
  if entities then "entities/" +:+ basenameNoJson f
  else if String.eqb (basename f) "Layout.js" then "layout"
  else forwardSlashes (stripExtension (relativePath f)).

End Deploy.

(** ** The pull command: one file after the other

    The part of the command after [fetchRemoteFiles]: [fileMap] holds the
    entries of the remote file map in the order of [Object.entries]. A
    file is named by its path, and the workspace files are the documents
    of the state: no document has unsaved edits when the pull runs. *)

(** The [for] loop of a pull: still running, with the count of the
    changed files, or left by an exception, which the command's [catch]
    receives together with the state the loop had reached. *)
Inductive Loop (S : Type) : Type :=
| Continue (s : S) (changedFiles : nat)
| Caught (s : S) (e : Error).
Arguments Continue {S} s changedFiles.
Arguments Caught {S} s e.

(** The state a loop has reached. *)
Definition reached {S : Type} (l : Loop S) : S :=
  match l with
  | Continue s _ => s
  | Caught s _ => s
  end.

(** The decimal digits of a count, as a template literal prints it. *)
Definition decimal (n : nat) : string := NilEmpty.string_of_uint (Nat.to_uint n).

Definition newFileCreated (filePath : string) : string :=
  "New file created: " +:+ filePath.

Definition noChangesFound : string := "No changes found.".

(** [ensureLocalFileExists(filePath, content)]: a file that [fs.stat] does
    not find is written with the content and announced. Folders are not
    part of the state. *)
Definition ensureLocalFileExists (st : State) (filePath content : string) : State :=
  match documents st !! filePath with
  | Some _ => st
  | None =>
      show_information (newFileCreated filePath) (set_document filePath content st)
  end.

(** [changes.some((c) => c.added || c.removed)]. *)
Definition differs (changes : list Diff.ChangeObject) : bool :=
  existsb (fun c => Diff.added c || Diff.removed c) changes.

Section Pull.

(** [Diff.diffLines] and the revision of [markChanges]. *)
Variable diffLines : string -> string -> list Diff.ChangeObject.
Variable rev : Revision.

(** The body of the loop for one entry of the file map: the file is read
    after [ensureLocalFileExists] (the empty text when it cannot be read),
    both texts are normalised and compared by the differ, and a file with
    an added or a removed segment is opened, shown and marked. *)
Definition pullFile (st : State) (changedFiles : nat) (entry : string * string)
  : Loop State :=
  let filePath := entry.1 in
  let remoteContent := entry.2 in
  let st1 := ensureLocalFileExists st filePath remoteContent in
  let remoteContentNormalized := Text.normalize remoteContent in
  let localContent := Text.normalize (default "" (documents st1 !! filePath)) in
  let changes := diffLines localContent remoteContentNormalized in
  if differs changes then
    match documents st1 !! filePath with
    | None => Caught st1 FileNotFound
    | Some _ =>
        let st2 := show_editor filePath st1 in
        match markChanges rev st2 filePath changes with
        | Ok st3 => Continue st3 (S changedFiles)
        | Throw e => Caught st2 e
        end
    end
  else Continue st1 changedFiles.

Fixpoint pullFiles (st : State) (changedFiles : nat) (fileMap : list (string * string))
  : Loop State :=
  match fileMap with
  | [] => Continue st changedFiles
  | entry :: rest =>
      match pullFile st changedFiles entry with
      | Continue st' changedFiles' => pullFiles st' changedFiles' rest
      | Caught st' e => Caught st' e
      end
  end.

(** The loop and what follows it: the closing message, or the [catch],
    which shows the exception's message and logs the exception. *)
Definition pull (st : State) (fileMap : list (string * string)) : State :=
  match pullFiles st 0 fileMap with
  | Continue st' changedFiles =>
      show_information
        (if (0 <? changedFiles)%nat
         then "Pull finished. " +:+ decimal changedFiles +:+ " files needs review."
         else noChangesFound)
        st'
  | Caught st' e => console_error e st'
  end.

End Pull.


(** ** The pull command of the first version: overwrite and compare

    [src/extension.ts] has no review engine: a file whose normalised
    content differs from the remote one is overwritten in its editor and
    shown beside its old content. *)

Module Overwrite.

(** The files on disk ([workspace.fs]), the text documents the host holds
    open with their text (a workspace edit changes the document, not the
    file), the information messages, the contents registered for the
    [memfs] scheme, the comparisons opened by [vscode.diff] and the
    exceptions the command's [catch] has received. *)
Record Workspace : Type := mkWorkspace {
  disk : gmap string string;
  buffers : gmap string Document;
  shown : list string;
  memfs : list string;
  compared : list string;
  failed : list Error
}.

Definition write_file (filePath content : string) (ws : Workspace) : Workspace :=
  mkWorkspace (<[filePath := content]> (disk ws)) (buffers ws) (shown ws)
              (memfs ws) (compared ws) (failed ws).


Definition inform (msg : string) (ws : Workspace) : Workspace :=
  mkWorkspace (disk ws) (buffers ws) (shown ws ++ [msg]) (memfs ws) (compared ws)
              (failed ws).





(** [ensureLocalFileExists(filePath, content)]. *)
Definition ensureLocalFileExists (ws : Workspace) (filePath content : string)
  : Workspace :=
  match disk ws !! filePath with
  | Some _ => ws
  | None => inform (newFileCreated filePath) (write_file filePath content ws)
  end.


Section Host.

(** Whether the host applies the workspace edit of a file; the command
    does not read the answer of [workspace.applyEdit]. *)
Variable applies : string -> bool.




End Host.


End Overwrite.

(** ** Shapes of the store and of its records *)

(** No entry of the store is the empty list. *)
Definition noEmptyEntry (st : State) : Prop :=
  forall uri, pendingByDoc st !! uri <> Some [].

(** The state [extension.rejectChange] leaves when the list of the document
    becomes [remaining]. *)
Definition rejectedTo (st : State) (docUri : string)
    (remaining : list PendingChange.t) : State :=
  let st1 := set_pending (storeList docUri remaining) st in
  if decide (docUri ∈ visibleTextEditors st1)
  then set_decorations docUri (plainDecos docUri remaining) st1
  else st1.

(** The display transform can be computed for the record: a range that
    ends at column 0 ends below the first line and not below the line after
    the last one. *)
Definition trimmable (doc : Document) (c : PendingChange.t) : Prop :=
  character (end_ (PendingChange.range c)) = 0 ->
  1 <= line (end_ (PendingChange.range c)) <= lineCount doc.

(** The hovers of the records of one kind, in list order. *)
Definition hoversOf (docUri : string) (k : ChangeKind) (pending : list PendingChange.t)
  : list Hover :=
  (fun c => makeHover c docUri) <$> filter (fun c => PendingChange.kind c = k) pending.

(** A differ for the examples: one unchanged segment for equal texts,
    the old text removed and the new text added otherwise. *)
Definition wholeText (old new : string) : list Diff.ChangeObject :=
  if String.eqb old new then
    (if String.eqb old "" then [] else [Diff.equal old])
  else
    (if String.eqb old "" then [] else [Diff.remove old])
    ++ (if String.eqb new "" then [] else [Diff.add new]).

(** ** Further scenarios *)

Module Cases.

Definition home : string := "/ws/src/pages/Home.jsx".
Definition layout : string := "/ws/src/Layout.js".

(** A remote file map: the page, its second line changed, and a layout. *)
Definition fileMap : list (string * string) :=
  [(home, Text.unlines ["a"; "B"]); (layout, Text.unlines ["x"])].

(** A fresh process whose workspace has the page and no layout. *)
Definition onePage : State := initial {[home := Text.unlines ["a"; "b"]]}.

(** A fresh process with an empty workspace. *)
Definition emptyWorkspace : State := initial ∅.


(** Two removed blocks at the top of a, b, c, the second right after the
    first. *)
Definition top1 : PendingChange.t :=
  PendingChange.mk 1 Removed (mkRng (mkPos 0 0) (mkPos 1 0)) "".
Definition top2 : PendingChange.t :=
  PendingChange.mk 2 Removed (mkRng (mkPos 1 0) (mkPos 2 0)) "".

Definition reviewingTop2 : State :=
  mkState 3 {[Scenario.uri := [top1; top2]]} {[Scenario.uri := Scenario.local3]}
    {[Scenario.uri]} ∅ [] [].

(** A page below a folder with a dot in its name, on a host whose path
    separator is the backslash. *)
Definition nestedPage : Deploy.ActiveFile :=
  Deploy.mkActive (String Deploy.BACKSLASH "") "pages\admin.v2\Home.jsx"
    "Home.jsx" "Home.jsx".

End Cases.

(** * Properties *)

(** ** Texts and documents *)

Lemma split_nl_length (s : string) : (1 <= length (Text.split_nl s))%nat.
Proof.
  induction s as [|c s IH]; simpl; [lia|].
  destruct (Ascii.eqb c Text.LF); simpl; [lia|].
  destruct (Text.split_nl s); simpl in *; lia.
Qed.

Lemma endsWith_nl_split (s : string) :
  Text.endsWith_nl s = true -> (2 <= length (Text.split_nl s))%nat.
Proof.
  induction s as [|c s IH]; [discriminate|].
  intros H.
  assert (Hs : (s = "" /\ Ascii.eqb c Text.LF = true) \/ Text.endsWith_nl s = true).
  { destruct s; [left; split; [done|exact H]|right; exact H]. }
  cbn [Text.split_nl].
  destruct Hs as [[-> Hc]|Hs].
  - rewrite Hc. cbn. lia.
  - specialize (IH Hs).
    destruct (Ascii.eqb c Text.LF); [cbn [length]; lia|].
    destruct (Text.split_nl s) as [|l [|l' ls]]; cbn [length] in *; lia.
Qed.

Lemma segmentLines_pos (s : string) : 1 <= Text.segmentLines s.
Proof.
  unfold Text.segmentLines.
  pose proof (split_nl_length s).
  destruct (Text.endsWith_nl s) eqn:E; [|lia].
  apply endsWith_nl_split in E. lia.
Qed.

Lemma newlines_nonneg (s : string) : 0 <= Text.newlines s.
Proof. unfold Text.newlines. pose proof (split_nl_length s). lia. Qed.

Lemma len_nonneg (s : string) : 0 <= len s.
Proof. unfold len. lia. Qed.

Lemma lineAt_Ok (doc : Document) (n : Z) (tl : TextLine.t) :
  lineAt doc n = Ok tl ->
  0 <= n < lineCount doc
  /\ doc_lines doc !! Z.to_nat n = Some (TextLine.text tl)
  /\ TextLine.range tl = mkRng (mkPos n 0) (mkPos n (len (TextLine.text tl)))
  /\ end_ (TextLine.rangeIncludingLineBreak tl) = lineEnd doc n (TextLine.text tl).
Proof.
  unfold lineAt, lineEnd.
  destruct ((n <? 0) || (lineCount doc <=? n)) eqn:E; [discriminate|].
  apply orb_false_iff in E as [E1 E2].
  apply Z.ltb_ge in E1. apply Z.leb_gt in E2.
  destruct (doc_lines doc !! Z.to_nat n) as [l|] eqn:El; [|discriminate].
  intros [= <-]. simpl.
  repeat split; try lia.
  destruct (n <? lineCount doc - 1); reflexivity.
Qed.

Lemma lineAt_in_range (doc : Document) (n : Z) :
  0 <= n < lineCount doc -> exists tl, lineAt doc n = Ok tl.
Proof.
  intros Hn. unfold lineAt.
  replace ((n <? 0) || (lineCount doc <=? n)) with false; cycle 1.
  { symmetry. apply orb_false_iff. split; [apply Z.ltb_ge|apply Z.leb_gt]; lia. }
  destruct (doc_lines doc !! Z.to_nat n) as [l|] eqn:El; [eauto|].
  apply lookup_ge_None in El. unfold lineCount in Hn. lia.
Qed.

Lemma lineAt_out_of_range (doc : Document) (n : Z) :
  n < 0 \/ lineCount doc <= n -> lineAt doc n = Throw (IllegalLine n).
Proof.
  intros Hn. unfold lineAt.
  replace ((n <? 0) || (lineCount doc <=? n)) with true; [done|].
  symmetry. apply orb_true_iff.
  destruct Hn; [left; apply Z.ltb_lt|right; apply Z.leb_le]; lia.
Qed.

Lemma lineEnd_bound (doc : Document) (n : Z) (l : string) :
  n < lineCount doc ->
  isBeforeOrEqual (lineEnd doc n l) (mkPos (n + 1) 0) = true.
Proof.
  intros Hn. unfold lineEnd, isBeforeOrEqual.
  destruct (n <? lineCount doc - 1); simpl.
  - rewrite Z.ltb_irrefl, Z.eqb_refl. reflexivity.
  - replace (n <? n + 1) with true; [done|]. symmetry. apply Z.ltb_lt. lia.
Qed.

(** ** Positions and ranges *)

Lemma isBeforeOrEqual_spec (a b : Position) :
  isBeforeOrEqual a b = true <->
  line a < line b \/ (line a = line b /\ character a <= character b).
Proof.
  unfold isBeforeOrEqual.
  rewrite orb_true_iff, andb_true_iff, Z.ltb_lt, Z.eqb_eq, Z.leb_le. tauto.
Qed.

Lemma isBefore_spec (a b : Position) :
  isBefore a b = true <->
  line a < line b \/ (line a = line b /\ character a < character b).
Proof.
  unfold isBefore.
  rewrite orb_true_iff, andb_true_iff, !Z.ltb_lt, Z.eqb_eq. tauto.
Qed.

Lemma isBefore_false (a b : Position) :
  isBefore a b = false <-> isBeforeOrEqual b a = true.
Proof.
  rewrite isBeforeOrEqual_spec, <- not_true_iff_false, isBefore_spec.
  destruct a, b; simpl. lia.
Qed.

Lemma isBeforeOrEqual_trans (a b c : Position) :
  isBeforeOrEqual a b = true -> isBeforeOrEqual b c = true ->
  isBeforeOrEqual a c = true.
Proof. rewrite !isBeforeOrEqual_spec. lia. Qed.

(** The constructor keeps two positions that are already in order. *)
Lemma newRange_ordered (a b : Position) :
  isBeforeOrEqual a b = true -> newRange a b = mkRng a b.
Proof.
  intros H. unfold newRange. destruct (isBefore a b) eqn:E; [done|].
  apply isBefore_false in E.
  apply isBeforeOrEqual_spec in H. apply isBeforeOrEqual_spec in E.
  destruct a as [la ca], b as [lb cb]; simpl in *.
  assert (la = lb /\ ca = cb) as [-> ->] by lia. reflexivity.
Qed.

Lemma newPosition_Ok (l c : Z) :
  0 <= l -> 0 <= c -> newPosition l c = Ok (mkPos l c).
Proof.
  intros Hl Hc. unfold newPosition.
  replace ((l <? 0) || (c <? 0)) with false; [done|].
  symmetry. apply orb_false_iff. split; apply Z.ltb_ge; lia.
Qed.

Lemma newPosition_inv (l c : Z) (p : Position) :
  newPosition l c = Ok p -> p = mkPos l c /\ 0 <= l /\ 0 <= c.
Proof.
  unfold newPosition. destruct ((l <? 0) || (c <? 0)) eqn:E; [discriminate|].
  apply orb_false_iff in E as [E1 E2].
  apply Z.ltb_ge in E1. apply Z.ltb_ge in E2. intros [= <-]. auto.
Qed.

(** ** The exception monad *)

Lemma bind_Ok {A B : Type} (m : Result A) (f : A -> Result B) (b : B) :
  (m ≫= f) = Ok b -> exists a, m = Ok a /\ f a = Ok b.
Proof. destruct m as [a|e]; [eauto|discriminate]. Qed.

Ltac bind_inv H :=
  let a := fresh "a" in
  let Ha := fresh "Ha" in
  apply bind_Ok in H as (a & Ha & H).

(** ** The builder's records *)

Lemma blockRange_Ok (doc : Document) (li n : Z) (r : Range) :
  1 <= n -> blockRange doc li n = Ok r ->
  exists tl, 0 <= li /\ lineAt doc (li + n - 1) = Ok tl
    /\ r = mkRng (mkPos li 0) (lineEnd doc (li + n - 1) (TextLine.text tl)).
Proof.
  intros Hn H. unfold blockRange in H.
  bind_inv H. apply newPosition_inv in Ha as (-> & Hli & _).
  bind_inv H. rename a into tl. injection H as <-.
  exists tl. split; [done|]. split; [done|].
  destruct (lineAt_Ok _ _ _ Ha) as (Hrange & _ & _ & ->).
  apply newRange_ordered. apply isBeforeOrEqual_spec.
  unfold lineEnd. destruct (li + n - 1 <? lineCount doc - 1); simpl.
  - left. lia.
  - pose proof (len_nonneg (TextLine.text tl)).
    destruct (decide (n = 1)); [right|left]; lia.
Qed.

Lemma blockRange_in_range (doc : Document) (li n : Z) :
  0 <= li -> 1 <= n -> li + n <= lineCount doc ->
  exists tl, lineAt doc (li + n - 1) = Ok tl
    /\ blockRange doc li n
       = Ok (mkRng (mkPos li 0) (lineEnd doc (li + n - 1) (TextLine.text tl))).
Proof.
  intros Hli Hn Hb.
  destruct (lineAt_in_range doc (li + n - 1)) as [tl Htl]; [lia|].
  exists tl. split; [done|].
  destruct (blockRange doc li n) as [r|e] eqn:E.
  - apply blockRange_Ok in E as (tl' & _ & Htl' & ->); [|done].
    rewrite Htl in Htl'. injection Htl' as <-. reflexivity.
  - unfold blockRange in E. rewrite newPosition_Ok in E by lia.
    cbn in E. rewrite Htl in E. discriminate.
Qed.

(** A block range is a legal range that starts at [(li, 0)] and ends no
    later than the start of line [li + n]. *)
Lemma blockRange_shape (doc : Document) (li n : Z) (r : Range) :
  1 <= n -> blockRange doc li n = Ok r ->
  range_wf r /\ start r = mkPos li 0
  /\ isBeforeOrEqual (end_ r) (mkPos (li + n) 0) = true.
Proof.
  intros Hn H. apply blockRange_Ok in H as (tl & Hli & Htl & ->); [|done].
  destruct (lineAt_Ok _ _ _ Htl) as (Hrange & _ & _ & _).
  pose proof (len_nonneg (TextLine.text tl)) as Hlen.
  pose proof (lineEnd_bound doc (li + n - 1) (TextLine.text tl)) as Hb.
  replace (li + n - 1 + 1) with (li + n) in Hb by lia.
  split; [|split; [done|apply Hb; lia]].
  unfold range_wf, lineEnd; simpl.
  destruct (li + n - 1 <? lineCount doc - 1); simpl;
    rewrite isBeforeOrEqual_spec; simpl; repeat split; lia.
Qed.

Lemma newRange4_point (li : Z) (r : Range) :
  newRange4 li 0 li 0 = Ok r -> 0 <= li /\ r = mkRng (mkPos li 0) (mkPos li 0).
Proof.
  unfold newRange4. intros H.
  bind_inv H. apply newPosition_inv in Ha as (-> & Hli & _).
  bind_inv H. apply newPosition_inv in Ha as (-> & _ & _).
  injection H as <-. split; [done|].
  apply newRange_ordered. apply isBeforeOrEqual_spec. simpl. lia.
Qed.

Lemma blockChange_Ok (doc : Document) (docUri : string) (li nextId : Z)
    (k : ChangeKind) (removedText remote : string)
    (cd : PendingChange.t * DecorationOptions) :
  blockChange doc docUri li nextId k removedText remote = Ok cd ->
  exists r, blockRange doc li (Text.segmentLines removedText) = Ok r
    /\ cd.1 = PendingChange.mk nextId k r remote.
Proof.
  unfold blockChange. intros H.
  bind_inv H. rename a into r. bind_inv H. injection H as <-.
  exists r. done.
Qed.

Lemma insertChange_Ok (rev : Revision) (doc : Document) (docUri : string)
    (li nextId : Z) (addedText : string)
    (cd : PendingChange.t * DecorationOptions) :
  insertChange rev doc docUri li nextId addedText = Ok cd ->
  0 <= li
  /\ cd.1 = PendingChange.mk nextId Added (mkRng (mkPos li 0) (mkPos li 0)) addedText.
Proof.
  unfold insertChange. intros H.
  bind_inv H. apply newRange4_point in Ha as (Hli & ->).
  bind_inv H. injection H as <-. done.
Qed.

(** ** The segment walk, case by case *)

Lemma walk_alone (rev : Revision) (doc : Document) (docUri : string)
    (part : Diff.ChangeObject) (rest : list Diff.ChangeObject) (li nextId : Z)
    (m : Marked) :
  (if Diff.removed part then
     cd ← blockChange doc docUri li nextId Removed (Diff.value part) "";
     m ← walk rev doc docUri rest
           (li + Text.segmentLines (Diff.value part)) (nextId + 1);
     mret (emit cd.1 cd.2 m)
   else if Diff.added part then
     cd ← insertChange rev doc docUri li nextId (Diff.value part);
     m ← walk rev doc docUri rest li (nextId + 1);
     mret (emit cd.1 cd.2 m)
   else
     walk rev doc docUri rest (li + Text.segmentLines (Diff.value part)) nextId) = Ok m ->
  WalkCase rev doc docUri part rest li nextId m.
Proof.
  intros H.
  destruct (Diff.removed part) eqn:Er; [|destruct (Diff.added part) eqn:Ea].
  - bind_inv H. bind_inv H. injection H as <-.
    eapply walk_removed; eauto.
  - bind_inv H. bind_inv H. injection H as <-.
    eapply walk_added; eauto.
  - eapply walk_unchanged; eauto.
Qed.

Lemma walk_cons_inv (rev : Revision) (doc : Document) (docUri : string)
    (part : Diff.ChangeObject) (rest : list Diff.ChangeObject) (li nextId : Z)
    (m : Marked) :
  walk rev doc docUri (part :: rest) li nextId = Ok m ->
  WalkCase rev doc docUri part rest li nextId m.
Proof.
  intros H. cbn [walk] in H.
  destruct rest as [|next rest']; [by apply walk_alone|].
  destruct (Diff.removed part && Diff.added next) eqn:E; [|by apply walk_alone].
  apply andb_true_iff in E as [Er Ea].
  bind_inv H. bind_inv H. injection H as <-.
  eapply walk_changed; eauto.
Qed.

(** Induction over the walk: a step continues on the tail or on the tail's
    tail. *)
Lemma walk_ind (P : list Diff.ChangeObject -> Prop) :
  P [] ->
  (forall part rest, P rest -> (forall next rest', rest = next :: rest' -> P rest') ->
                     P (part :: rest)) ->
  forall diffs, P diffs.
Proof.
  intros Hnil Hcons diffs.
  assert (H : P diffs /\ (forall next rest', diffs = next :: rest' -> P rest')); [|apply H].
  induction diffs as [|part rest [IH1 IH2]].
  - split; [done|]. intros ? ? [=].
  - split; [by apply Hcons|]. by intros ? ? [= _ <-].
Qed.

(** ** Order and ids of the records of one walk *)

Lemma below_mono (li li' : Z) (c : PendingChange.t) :
  li <= li' -> below li' c -> below li c.
Proof. unfold below. intros ? [? ?]. split; [done|lia]. Qed.

Lemma precedes_below (a c : PendingChange.t) (li li' : Z) :
  start (PendingChange.range a) = mkPos li 0 ->
  isBeforeOrEqual (end_ (PendingChange.range a)) (mkPos li' 0) = true ->
  li <= li' -> below li' c -> precedes a c.
Proof.
  intros Hs He Hle [Hwf Hc]. split; [|rewrite Hs; simpl; lia].
  eapply isBeforeOrEqual_trans; [exact He|].
  destruct Hwf as (_ & _ & Hch & _).
  apply isBeforeOrEqual_spec. simpl. lia.
Qed.

Lemma emit_pending (ch : PendingChange.t) (d : DecorationOptions) (m : Marked) :
  markedPending (emit ch d m) = ch :: markedPending m.
Proof. reflexivity. Qed.

Lemma emit_nextId (ch : PendingChange.t) (d : DecorationOptions) (m : Marked) :
  markedNextId (emit ch d m) = markedNextId m.
Proof. reflexivity. Qed.

Lemma walk_sorted (rev : Revision) (doc : Document) (docUri : string)
    (diffs : list Diff.ChangeObject) :
  forall (li nextId : Z) (m : Marked),
    0 <= li ->
    walk rev doc docUri diffs li nextId = Ok m ->
    Forall (below li) (markedPending m)
    /\ StronglySorted precedes (markedPending m).
Proof.
  induction diffs as [|part rest IH IH'] using walk_ind; intros li nextId m Hli H.
  - injection H as <-. split; constructor.
  - pose proof (segmentLines_pos (Diff.value part)) as Hn.
    destruct (walk_cons_inv _ _ _ _ _ _ _ _ H)
      as [next rest' cd m' -> _ _ Hcd Hw ->|cd m' _ Hcd Hw ->|cd m' _ _ Hcd Hw ->|_ _ Hw].
    + apply blockChange_Ok in Hcd as (r & Hr & Hc).
      apply blockRange_shape in Hr as (Hwf & Hs & He); [|done].
      apply (IH' next rest' eq_refl) in Hw as [Hb Hso]; [|lia].
      rewrite emit_pending, Hc. split.
      * constructor; [split; simpl; [done|rewrite Hs; simpl; lia]|].
        eapply Forall_impl; [exact Hb|]. intros c. apply below_mono. lia.
      * constructor; [done|].
        eapply Forall_impl; [exact Hb|]. intros c.
        apply precedes_below with (li := li); simpl; [done|done|lia].
    + apply blockChange_Ok in Hcd as (r & Hr & Hc).
      apply blockRange_shape in Hr as (Hwf & Hs & He); [|done].
      apply IH in Hw as [Hb Hso]; [|lia].
      rewrite emit_pending, Hc. split.
      * constructor; [split; simpl; [done|rewrite Hs; simpl; lia]|].
        eapply Forall_impl; [exact Hb|]. intros c. apply below_mono. lia.
      * constructor; [done|].
        eapply Forall_impl; [exact Hb|]. intros c.
        apply precedes_below with (li := li); simpl; [done|done|lia].
    + apply insertChange_Ok in Hcd as (_ & Hc).
      apply IH in Hw as [Hb Hso]; [|lia].
      rewrite emit_pending, Hc. split.
      * constructor; [|done]. split; simpl; [|lia].
        unfold range_wf; simpl. rewrite isBeforeOrEqual_spec; simpl.
        repeat split; lia.
      * constructor; [done|].
        eapply Forall_impl; [exact Hb|]. intros c.
        apply precedes_below with (li := li); simpl; [done| |lia].
        apply isBeforeOrEqual_spec; simpl; lia.
    + apply IH in Hw as [Hb Hso]; [|lia]. split; [|done].
      eapply Forall_impl; [exact Hb|]. intros c. apply below_mono. lia.
Qed.

Lemma walk_ids (rev : Revision) (doc : Document) (docUri : string)
    (diffs : list Diff.ChangeObject) :
  forall (li nextId : Z) (m : Marked),
    walk rev doc docUri diffs li nextId = Ok m ->
    PendingChange.id <$> markedPending m = seqZ nextId (Z.of_nat (length (markedPending m)))
    /\ markedNextId m = nextId + Z.of_nat (length (markedPending m)).
Proof.
  assert (Hstep : forall (nextId : Z) (l : list PendingChange.t) (c : PendingChange.t),
             PendingChange.id c = nextId ->
             PendingChange.id <$> l = seqZ (nextId + 1) (Z.of_nat (length l)) ->
             PendingChange.id <$> (c :: l)
             = seqZ nextId (Z.of_nat (length (c :: l)))).
  { intros nextId l c Hc Hl. cbn [length]. rewrite Nat2Z.inj_succ.
    rewrite seqZ_cons by lia. rewrite fmap_cons, Hc.
    replace (Z.succ nextId) with (nextId + 1) by lia.
    replace (Z.pred (Z.succ (Z.of_nat (length l)))) with (Z.of_nat (length l)) by lia.
    by rewrite Hl. }
  induction diffs as [|part rest IH IH'] using walk_ind; intros li nextId m H.
  - injection H as <-. simpl. split; [done|lia].
  - destruct (walk_cons_inv _ _ _ _ _ _ _ _ H)
      as [next rest' cd m' -> _ _ Hcd Hw ->|cd m' _ Hcd Hw ->|cd m' _ _ Hcd Hw ->|_ _ Hw].
    + apply blockChange_Ok in Hcd as (r & _ & Hc).
      apply (IH' next rest' eq_refl) in Hw as [Hids Hnext].
      rewrite emit_pending, emit_nextId, Hnext. split.
      * apply Hstep; [by rewrite Hc|done].
      * cbn [length]. lia.
    + apply blockChange_Ok in Hcd as (r & _ & Hc).
      apply IH in Hw as [Hids Hnext].
      rewrite emit_pending, emit_nextId, Hnext. split.
      * apply Hstep; [by rewrite Hc|done].
      * cbn [length]. lia.
    + apply insertChange_Ok in Hcd as (_ & Hc).
      apply IH in Hw as [Hids Hnext].
      rewrite emit_pending, emit_nextId, Hnext. split.
      * apply Hstep; [by rewrite Hc|done].
      * cbn [length]. lia.
    + by apply IH in Hw.
Qed.

Lemma StronglySorted_lookup {A : Type} (R : A -> A -> Prop) (l : list A) :
  StronglySorted R l ->
  forall (i j : nat) (a b : A), l !! i = Some a -> l !! j = Some b -> (i < j)%nat -> R a b.
Proof.
  induction 1 as [|x l Hs IH Hall]; intros i j a b Hi Hj Hlt.
  - by rewrite lookup_nil in Hi.
  - destruct j as [|j]; [lia|]. destruct i as [|i]; simpl in *.
    + injection Hi as <-. rewrite Forall_forall in Hall.
      apply Hall. by eapply list_elem_of_lookup_2.
    + eapply IH; eauto. lia.
Qed.

Lemma markChanges_Ok (rev : Revision) (st st' : State) (docUri : string)
    (diffs : list Diff.ChangeObject) :
  markChanges rev st docUri diffs = Ok st' ->
  exists doc m,
    documents st !! docUri = Some doc
    /\ walk rev doc docUri diffs 0 (nextChangeId st) = Ok m
    /\ pendingOf st' docUri = markedPending m
    /\ nextChangeId st' = markedNextId m
    /\ documents st' = documents st.
Proof.
  unfold markChanges. destruct (documents st !! docUri) as [doc|]; [|discriminate].
  intros H. bind_inv H. rename a into m. injection H as <-.
  exists doc, m. repeat split; try done.
  unfold pendingOf; simpl. by rewrite lookup_insert_eq.
Qed.


(** ** Lookup by id *)

Lemma findIndex_None (id : Z) (pending : list PendingChange.t) :
  findIndex id pending = None <-> id ∉ (PendingChange.id <$> pending).
Proof.
  unfold findIndex. rewrite fmap_None, list_find_None, Forall_forall.
  rewrite list_elem_of_fmap. split.
  - intros H (c & -> & Hc). by apply (H c).
  - intros H c Hc Hid. apply H. exists c. done.
Qed.

Lemma findIndex_Some (id : Z) (pending : list PendingChange.t) (idx : nat) :
  findIndex id pending = Some idx ->
  exists pre ch post,
    pending = pre ++ ch :: post /\ length pre = idx
    /\ PendingChange.id ch = id
    /\ Forall (fun c => PendingChange.id c <> id) pre.
Proof.
  unfold findIndex. rewrite fmap_Some. intros ([i ch] & Hfind & ->). simpl.
  apply list_find_Some in Hfind as (Hi & Hid & Hpre).
  exists (take i pending), ch, (drop (S i) pending).
  pose proof (lookup_lt_Some _ _ _ Hi) as Hlt.
  repeat split.
  - by rewrite <- (take_drop_middle _ _ _ Hi) at 1.
  - rewrite length_take. lia.
  - done.
  - apply Forall_forall. intros c Hc.
    apply list_elem_of_lookup in Hc as [j Hj].
    pose proof (lookup_lt_Some _ _ _ Hj) as Hjlt. rewrite length_take in Hjlt.
    rewrite lookup_take_lt in Hj by lia. eapply Hpre; [exact Hj|lia].
Qed.

Lemma findIndex_middle (pre post : list PendingChange.t) (ch : PendingChange.t) :
  Forall (fun c => PendingChange.id c <> PendingChange.id ch) pre ->
  findIndex (PendingChange.id ch) (pre ++ ch :: post) = Some (length pre).
Proof.
  intros Hpre. unfold findIndex.
  assert (H : list_find (fun c => PendingChange.id c = PendingChange.id ch)
                (pre ++ ch :: post) = Some (length pre, ch)); [|by rewrite H].
  apply list_find_Some. repeat split.
  - by rewrite list_lookup_middle.
  - intros j c Hj Hlt. rewrite lookup_app_l in Hj by done.
    rewrite Forall_forall in Hpre. apply Hpre. by eapply list_elem_of_lookup_2.
Qed.

(** With unique ids, cutting out the first record with an id is cutting out
    every record with that id. *)
Lemma delete_first_with_id (pre post : list PendingChange.t) (ch : PendingChange.t) :
  NoDup (PendingChange.id <$> (pre ++ ch :: post)) ->
  pre ++ post
  = filter (fun c => PendingChange.id c <> PendingChange.id ch) (pre ++ ch :: post).
Proof.
  intros Hnd. rewrite fmap_app, fmap_cons in Hnd.
  apply NoDup_app in Hnd as (_ & Hpre & Hpost).
  apply NoDup_cons in Hpost as [Hpost _].
  assert (Hkeep : forall l : list PendingChange.t,
             PendingChange.id ch ∉ (PendingChange.id <$> l) ->
             filter (fun c => PendingChange.id c <> PendingChange.id ch) l = l).
  { induction l as [|c l IH]; [done|]. rewrite fmap_cons, not_elem_of_cons.
    intros [Hc Hl]. rewrite filter_cons_True by done. by rewrite IH. }
  rewrite filter_app, filter_cons_False by (intros H; by apply H).
  rewrite !Hkeep; [done|done|].
  intros H. apply (Hpre (PendingChange.id ch)); [done|]. by left.
Qed.

Lemma storeList_lookup (docUri : string) (pending : list PendingChange.t)
    (m : gmap string (list PendingChange.t)) :
  default [] (storeList docUri pending m !! docUri) = pending.
Proof.
  destruct pending; simpl; [by rewrite lookup_delete_eq|by rewrite lookup_insert_eq].
Qed.

Lemma storeList_lookup_ne (docUri other : string) (pending : list PendingChange.t)
    (m : gmap string (list PendingChange.t)) :
  other <> docUri -> storeList docUri pending m !! other = m !! other.
Proof.
  intros Hne. destruct pending; simpl;
    [by rewrite lookup_delete_ne|by rewrite lookup_insert_ne].
Qed.

(** ** Re-anchoring *)

Lemma shiftedRange_Ok (delta : Z) (r : Range) :
  range_wf r -> 0 <= line (start r) + delta ->
  shiftedRange delta r = Ok (shiftLines delta r).
Proof.
  intros (Hord & Hsl & Hsc & Hel & Hec) Hd.
  apply isBeforeOrEqual_spec in Hord.
  unfold shiftedRange, newRange4.
  rewrite newPosition_Ok by lia. cbn [mbind Result_bind].
  rewrite newPosition_Ok by lia. cbn [mbind Result_bind mret Result_ret].
  f_equal. apply newRange_ordered. apply isBeforeOrEqual_spec. simpl. lia.
Qed.

Lemma reanchor_movable (delta : Z) (others : list PendingChange.t) :
  Forall (movable delta) others ->
  reanchor delta others = (shift delta <$> others, None).
Proof.
  induction 1 as [|c l [Hwf Hd] _ IH]; [done|].
  cbn [reanchor]. rewrite shiftedRange_Ok by done. rewrite IH. reflexivity.
Qed.

Lemma accept_resolved (host : EditOutcome) (st : State) (docUri : string)
    (doc : Document) (pre post : list PendingChange.t) (A : PendingChange.t) :
  pendingByDoc st !! docUri = Some (pre ++ A :: post) ->
  Forall (fun c => PendingChange.id c <> PendingChange.id A) pre ->
  documents st !! docUri = Some doc ->
  host <> EditRejected ->
  Forall (movable (lineDelta A)) post ->
  pendingOf (accept host st docUri (PendingChange.id A)) docUri
  = pre ++ (shift (lineDelta A) <$> post)
  /\ documents (accept host st docUri (PendingChange.id A)) !! docUri
     = Some (match host with
             | EditApplied => applyEdit doc (editOf A)
             | _ => doc
             end).
Proof.
  intros Hp Hpre Hdoc Hhost Hpost. unfold accept.
  rewrite Hp, (findIndex_middle _ _ _ Hpre), list_lookup_middle by done.
  rewrite Hdoc.
  replace (drop (S (length pre)) (pre ++ A :: post)) with post; cycle 1.
  { rewrite (cons_middle A pre post), app_assoc.
    symmetry. apply drop_app_length'. rewrite length_app. simpl. lia. }
  replace (take (S (length pre)) (pre ++ A :: post)) with (pre ++ [A]); cycle 1.
  { rewrite (cons_middle A pre post), app_assoc.
    symmetry. apply take_app_length'. rewrite length_app. simpl. lia. }
  rewrite (reanchor_movable _ _ Hpost). cbn [fst snd].
  replace (delete (length pre) ((pre ++ [A]) ++ (shift (lineDelta A) <$> post)))
    with (pre ++ (shift (lineDelta A) <$> post)); cycle 1.
  { rewrite <- app_assoc. cbn [app].
    by rewrite (delete_middle pre). }
  destruct host; [| |done].
  - split.
    + unfold pendingOf.
      destruct (pre ++ (shift (lineDelta A) <$> post)) eqn:E; simpl;
        [by rewrite lookup_delete_eq|by rewrite lookup_insert_eq].
    + destruct (pre ++ (shift (lineDelta A) <$> post)); simpl;
        by rewrite lookup_insert_eq.
  - split.
    + unfold pendingOf.
      destruct (pre ++ (shift (lineDelta A) <$> post)) eqn:E; simpl;
        [by rewrite lookup_delete_eq|by rewrite lookup_insert_eq].
    + by destruct (pre ++ (shift (lineDelta A) <$> post)); simpl.
Qed.

(** ** The id counter along a run *)

Lemma accept_nextChangeId (host : EditOutcome) (st : State) (docUri : string) (id : Z) :
  nextChangeId (accept host st docUri id) = nextChangeId st.
Proof.
  unfold accept.
  repeat (match goal with
          | |- context [match ?x with _ => _ end] => destruct x
          end; try reflexivity).
Qed.

Lemma reject_nextChangeId (st : State) (docUri : string) (id : Z) :
  nextChangeId (reject st docUri id) = nextChangeId st.
Proof.
  unfold reject.
  repeat (match goal with
          | |- context [match ?x with _ => _ end] => destruct x
          end; try reflexivity).
Qed.

Lemma refresh_nextChangeId (st st' : State) (docUri : string) :
  refreshDecorationsFor st docUri = Ok st' -> nextChangeId st' = nextChangeId st.
Proof.
  unfold refreshDecorationsFor.
  destruct (decide (docUri ∈ visibleTextEditors st)); [|by intros [= <-]].
  destruct (documents st !! docUri); [|by intros [= <-]].
  intros H. bind_inv H. by injection H as <-.
Qed.

Lemma seqZ_sorted (len' : nat) (m : Z) :
  StronglySorted Z.lt (seqZ m (Z.of_nat len'))
  /\ Forall (fun i => m <= i < m + Z.of_nat len') (seqZ m (Z.of_nat len')).
Proof.
  revert m. induction len' as [|k IH]; intros m; [split; constructor|].
  rewrite Nat2Z.inj_succ, seqZ_cons by lia.
  replace (Z.pred (Z.succ (Z.of_nat k))) with (Z.of_nat k) by lia.
  destruct (IH (Z.succ m)) as [Hs Hb]. split.
  - constructor; [done|]. eapply Forall_impl; [exact Hb|]. simpl. lia.
  - constructor; [lia|]. eapply Forall_impl; [exact Hb|]. simpl. lia.
Qed.

Lemma step_ids (st : State) (c : Command) :
  StronglySorted Z.lt (step st c).2
  /\ Forall (fun i => nextChangeId st <= i < nextChangeId (step st c).1) (step st c).2
  /\ nextChangeId st <= nextChangeId (step st c).1.
Proof.
  destruct c as [rev docUri diffs|host docUri id|docUri id|docUri]; simpl.
  - destruct (existsb _ diffs); [|simpl; repeat split; try constructor; lia].
    destruct (documents st !! docUri); [|simpl; repeat split; try constructor; lia].
    destruct (markChanges rev (show_editor docUri st) docUri diffs) as [st'|e] eqn:E;
      simpl; [|repeat split; try constructor; lia].
    apply markChanges_Ok in E as (doc & m & _ & Hw & -> & -> & _).
    apply walk_ids in Hw as [-> ->]. simpl.
    destruct (seqZ_sorted (length (markedPending m)) (nextChangeId st)) as [Hs Hb].
    repeat split; [done|done|lia].
  - rewrite accept_nextChangeId. repeat split; try constructor; lia.
  - rewrite reject_nextChangeId. repeat split; try constructor; lia.
  - destruct (refreshDecorationsFor st docUri) as [st'|e] eqn:E; simpl;
      [apply refresh_nextChangeId in E; rewrite E|];
      repeat split; try constructor; lia.
Qed.

Lemma StronglySorted_lt_app (l1 l2 : list Z) (n : Z) :
  StronglySorted Z.lt l1 -> StronglySorted Z.lt l2 ->
  Forall (fun i => i < n) l1 -> Forall (fun i => n <= i) l2 ->
  StronglySorted Z.lt (l1 ++ l2).
Proof.
  intros H1 H2 Hb1 Hb2. induction H1 as [|x l Hs IH Hall]; [done|].
  apply Forall_cons in Hb1 as [Hx Hb1]. simpl. constructor; [by apply IH|].
  apply Forall_app. split; [done|].
  eapply Forall_impl; [exact Hb2|]. simpl. lia.
Qed.

(** ** The scenarios *)

(** The scenario states are the states the pull leaves. *)
Example pull_diffs5 :
  run (Scenario.fresh Scenario.local5) [Pull TrimAtTop Scenario.uri Scenario.diffs5]
  = (Scenario.reviewing5, [1; 2]).
Proof. vm_compute. reflexivity. Qed.

Example pull_diffsB :
  run (Scenario.fresh Scenario.local3) [Pull TrimAtTop Scenario.uri Scenario.diffsB]
  = (Scenario.reviewingB, [1]).
Proof. vm_compute. reflexivity. Qed.

Example pull_diffsMid :
  run (Scenario.fresh Scenario.local3) [Pull TrimAtTop Scenario.uri Scenario.diffsMid]
  = (Scenario.reviewingMid, [1]).
Proof. vm_compute. reflexivity. Qed.

(** An insertion above the first line is stored by the revision that
    trims below the top only; in the other one [markChanges] itself asks
    for line -1 and throws, and the pull stores nothing. *)
Example pull_diffsTop :
  run (Scenario.fresh Scenario.local3) [Pull TrimBelowTop Scenario.uri Scenario.diffsTop]
  = (Scenario.reviewingTop, [1])
  /\ markChanges TrimAtTop (show_editor Scenario.uri (Scenario.fresh Scenario.local3))
       Scenario.uri Scenario.diffsTop
     = Throw (IllegalLine (-1)).
Proof. split; vm_compute; reflexivity. Qed.

(** The first three scenarios of the specification: a pure addition, a
    pure deletion, a one-line replacement; each pulled and accepted. *)
Example scenario_addition :
  run (Scenario.fresh (Text.unlines ["a"; "b"]))
    [Pull TrimAtTop Scenario.uri
       [Diff.equal (Text.unlines ["a"]); Diff.add (Text.unlines ["X"]);
        Diff.equal (Text.unlines ["b"])]]
  = (mkState 2
       {[Scenario.uri :=
           [PendingChange.mk 1 Added (mkRng (mkPos 1 0) (mkPos 1 0)) (Text.unlines ["X"])]]}
       {[Scenario.uri := Text.unlines ["a"; "b"]]} {[Scenario.uri]}
       {[Scenario.uri :=
           mkDecos [] []
             [mkDeco (mkRng (mkPos 0 1) (mkPos 1 0))
                     (mkHover (Text.unlines ["X"]) Scenario.uri 1)]]}
       [] [], [1])
  /\ (let st := (run (Scenario.fresh (Text.unlines ["a"; "b"]))
                   [Pull TrimAtTop Scenario.uri
                      [Diff.equal (Text.unlines ["a"]); Diff.add (Text.unlines ["X"]);
                       Diff.equal (Text.unlines ["b"])];
                    AcceptChange EditApplied Scenario.uri 1]).1 in
      documents st !! Scenario.uri = Some (Text.unlines ["a"; "X"; "b"])
      /\ pendingByDoc st !! Scenario.uri = None
      /\ infoMessages st = [allAccepted]).
Proof. repeat split; vm_compute; reflexivity. Qed.

Example scenario_deletion :
  let st := (run (Scenario.fresh Scenario.local3)
               [Pull TrimAtTop Scenario.uri
                  [Diff.equal (Text.unlines ["a"]); Diff.remove (Text.unlines ["b"]);
                   Diff.equal (Text.unlines ["c"])]]).1 in
  pendingOf st Scenario.uri
  = [PendingChange.mk 1 Removed (mkRng (mkPos 1 0) (mkPos 2 0)) ""]
  /\ documents (accept EditApplied st Scenario.uri 1) !! Scenario.uri
     = Some (Text.unlines ["a"; "c"]).
Proof. split; vm_compute; reflexivity. Qed.

Example scenario_replacement :
  pendingOf Scenario.reviewingB Scenario.uri = [Scenario.replacement]
  /\ documents (accept EditApplied Scenario.reviewingB Scenario.uri 1) !! Scenario.uri
     = Some Scenario.remoteB.
Proof. split; vm_compute; reflexivity. Qed.

Example diffs5_tiles : tiles Scenario.local5 Scenario.remote3 Scenario.diffs5.
Proof. split; reflexivity. Qed.

Example texts5_normal :
  Text.normalize Scenario.local5 = Scenario.local5
  /\ Text.normalize Scenario.remote3 = Scenario.remote3.
Proof. split; reflexivity. Qed.

(** ** The display transform on block ranges *)

Lemma split_nl_single_empty (doc : string) : Text.split_nl doc = [""] -> doc = "".
Proof.
  destruct doc as [|c s]; [done|]. cbn [Text.split_nl].
  pose proof (split_nl_length s) as Hlen.
  destruct (Ascii.eqb c Text.LF).
  - intros [= H]. rewrite H in Hlen. simpl in Hlen. lia.
  - destruct (Text.split_nl s); intros [= ?].
Qed.

Lemma len_zero (s : string) : len s = 0 -> s = "".
Proof. destruct s; [done|]. unfold len. simpl. lia. Qed.

Lemma trim_after_lineAt (doc : Document) (a : Position) (n : Z) (tl : TextLine.t) :
  lineAt doc n = Ok tl ->
  trimRange false doc (mkRng a (mkPos (n + 1) 0))
  = Ok (newRange a (mkPos n (len (TextLine.text tl)))).
Proof.
  intros Htl. unfold trimRange. cbn [end_ start character line].
  rewrite Z.eqb_refl. cbn [negb orb andb].
  replace (n + 1 - 1) with n by lia. rewrite Htl. cbn [mbind Result_bind].
  destruct (lineAt_Ok _ _ _ Htl) as (Hn & _ & -> & _). cbn [end_ character].
  rewrite newPosition_Ok by (pose proof (len_nonneg (TextLine.text tl)); lia).
  reflexivity.
Qed.

Lemma trimRange_block (doc : Document) (li n : Z) (tl : TextLine.t) :
  0 <= li -> 1 <= n -> lineAt doc (li + n - 1) = Ok tl -> doc <> "" ->
  exists d,
    trimRange false doc (mkRng (mkPos li 0) (lineEnd doc (li + n - 1) (TextLine.text tl)))
    = Ok d.
Proof.
  intros Hli Hn Htl Hdoc. unfold lineEnd.
  destruct (lineAt_Ok _ _ _ Htl) as (He & Hl & _ & _).
  destruct (li + n - 1 <? lineCount doc - 1) eqn:E.
  - rewrite (trim_after_lineAt _ _ _ _ Htl). eauto.
  - apply Z.ltb_ge in E. unfold trimRange. cbn [end_ start character line negb orb].
    rewrite andb_true_r.
    destruct (len (TextLine.text tl) =? 0) eqn:E0; [|cbn; eauto].
    apply Z.eqb_eq, len_zero in E0.
    assert (1 <= li + n - 1) as Hge.
    { destruct (decide (li + n - 1 = 0)) as [Hz|]; [|lia].
      exfalso. apply Hdoc. apply split_nl_single_empty.
      rewrite Hz in Hl. unfold lineCount, doc_lines in *.
      destruct (Text.split_nl doc) as [|l [|l' ls]]; simpl in *; try lia.
      injection Hl as ->. by rewrite E0. }
    destruct (lineAt_in_range doc (li + n - 1 - 1)) as [tl' Htl']; [lia|].
    rewrite Htl'. cbn [mbind Result_bind].
    destruct (lineAt_Ok _ _ _ Htl') as (_ & _ & -> & _). cbn [end_ character].
    rewrite newPosition_Ok by (pose proof (len_nonneg (TextLine.text tl')); lia).
    cbn. eauto.
Qed.

(** ** The builder returns on a line differ's output *)

Lemma split_nl_cons_length (c : ascii) (s : string) :
  length (Text.split_nl (String c s))
  = if Ascii.eqb c Text.LF then S (length (Text.split_nl s))
    else length (Text.split_nl s).
Proof.
  cbn [Text.split_nl]. pose proof (split_nl_length s).
  destruct (Ascii.eqb c Text.LF); [done|].
  destruct (Text.split_nl s); simpl in *; [lia|done].
Qed.

Lemma newlines_app (a b : string) :
  Text.newlines (a +:+ b) = Text.newlines a + Text.newlines b.
Proof.
  unfold Text.newlines. induction a as [|c a IH].
  - change ("" +:+ b) with b. simpl. lia.
  - change (String c a +:+ b) with (String c (a +:+ b)).
    rewrite !split_nl_cons_length.
    destruct (Ascii.eqb c Text.LF); lia.
Qed.

Lemma segmentLines_bound (s : string) :
  Text.segmentLines s <= Text.newlines s + 1
  /\ (Text.endsWith_nl s = true -> Text.segmentLines s = Text.newlines s).
Proof.
  unfold Text.segmentLines, Text.newlines.
  destruct (Text.endsWith_nl s); split; intros; try done; lia.
Qed.

Lemma oldLines_nonneg (diffs : list Diff.ChangeObject) : 0 <= oldLines diffs.
Proof.
  induction diffs as [|part rest IH]; simpl; [lia|].
  pose proof (segmentLines_pos (Diff.value part)).
  destruct (Diff.added part); lia.
Qed.

Lemma oldLines_no_old (diffs : list Diff.ChangeObject) :
  hasOld diffs = false -> oldLines diffs = 0 /\ oldText diffs = "".
Proof.
  induction diffs as [|part rest IH]; simpl; [done|].
  intros H. apply orb_false_iff in H as [Ha Hrest].
  destruct (Diff.added part); [by apply IH|discriminate].
Qed.

(** The lines consumed are the lines of the old text. *)
Lemma oldLines_bound (diffs : list Diff.ChangeObject) :
  lineWise diffs -> oldLines diffs <= lineCount (oldText diffs).
Proof.
  unfold lineCount, doc_lines.
  assert (Hcount : forall s, Z.of_nat (length (Text.split_nl s)) = Text.newlines s + 1)
    by (intros s; unfold Text.newlines; lia).
  rewrite Hcount.
  induction diffs as [|part rest IH]; [simpl; unfold Text.newlines; simpl; lia|].
  intros (_ & _ & Hnl & Hrest). specialize (IH Hrest). simpl.
  destruct (Diff.added part) eqn:Ea; [done|].
  rewrite newlines_app.
  destruct (segmentLines_bound (Diff.value part)) as [Hle Heq].
  destruct (hasOld rest) eqn:Eo.
  - rewrite Heq by (by apply Hnl). lia.
  - destruct (oldLines_no_old _ Eo) as [-> ->].
    unfold Text.newlines at 2. simpl. lia.
Qed.

Lemma blockChange_succeeds (doc : Document) (docUri : string) (li nextId : Z)
    (k : ChangeKind) (removedText remote : string) :
  0 <= li -> li + Text.segmentLines removedText <= lineCount doc -> doc <> "" ->
  exists cd, blockChange doc docUri li nextId k removedText remote = Ok cd.
Proof.
  intros Hli Hb Hdoc.
  pose proof (segmentLines_pos removedText) as Hn.
  destruct (blockRange_in_range doc li _ Hli Hn Hb) as (tl & Htl & Hr).
  destruct (trimRange_block doc li _ tl Hli Hn Htl Hdoc) as [d Hd].
  unfold blockChange. rewrite Hr. cbn [mbind Result_bind]. rewrite Hd.
  cbn. eauto.
Qed.

Lemma insertChange_succeeds (rev : Revision) (doc : Document) (docUri : string)
    (li nextId : Z) (addedText : string) :
  0 <= li <= lineCount doc -> rev = TrimBelowTop \/ 1 <= li ->
  exists cd, insertChange rev doc docUri li nextId addedText = Ok cd.
Proof.
  intros Hli Htop. unfold insertChange, newRange4.
  rewrite newPosition_Ok by lia. cbn [mbind Result_bind mret Result_ret].
  rewrite newRange_ordered by (apply isBeforeOrEqual_spec; simpl; lia).
  unfold trimRange. cbn [end_ start character line]. rewrite Z.eqb_refl.
  destruct (negb (belowTopOnly rev) || (0 <? li)) eqn:E; cbn [andb]; [|cbn; eauto].
  assert (1 <= li) as Hge.
  { destruct Htop as [->|]; [|done]. simpl in E. apply Z.ltb_lt in E. lia. }
  destruct (lineAt_in_range doc (li - 1)) as [tl Htl]; [lia|].
  rewrite Htl. cbn [mbind Result_bind].
  destruct (lineAt_Ok _ _ _ Htl) as (_ & _ & -> & _). cbn [end_ character].
  rewrite newPosition_Ok by (pose proof (len_nonneg (TextLine.text tl)); lia).
  cbn. eauto.
Qed.

Lemma walk_succeeds (rev : Revision) (doc : Document) (docUri : string)
    (diffs : list Diff.ChangeObject) :
  forall (li nextId : Z),
    0 <= li -> li + oldLines diffs <= lineCount doc ->
    Forall (fun part => Diff.added part && Diff.removed part = false) diffs ->
    doc <> "" \/ Forall (fun part => Diff.removed part = false) diffs ->
    rev = TrimBelowTop \/ 1 <= li \/ startsWithAdded diffs = false ->
    exists m, walk rev doc docUri diffs li nextId = Ok m.
Proof.
  induction diffs as [|part rest IH IH'] using walk_ind;
    intros li nextId Hli Hb Hflags Hdoc Htop; [cbn; eauto|].
  pose proof (segmentLines_pos (Diff.value part)) as Hn.
  pose proof (oldLines_nonneg rest) as Hrest0.
  apply Forall_cons in Hflags as [Hflag Hflags].
  assert (Hdoc' : doc <> "" \/ Forall (fun part => Diff.removed part = false) rest).
  { destruct Hdoc as [?|H]; [by left|right]. by apply Forall_cons in H as [_ ?]. }
  assert (Halone :
    exists m,
      (if Diff.removed part then
         cd ← blockChange doc docUri li nextId Removed (Diff.value part) "";
         m ← walk rev doc docUri rest
               (li + Text.segmentLines (Diff.value part)) (nextId + 1);
         mret (emit cd.1 cd.2 m)
       else if Diff.added part then
         cd ← insertChange rev doc docUri li nextId (Diff.value part);
         m ← walk rev doc docUri rest li (nextId + 1);
         mret (emit cd.1 cd.2 m)
       else
         walk rev doc docUri rest (li + Text.segmentLines (Diff.value part)) nextId)
      = Ok m).
  { simpl in Hb.
    destruct (Diff.removed part) eqn:Er; [|destruct (Diff.added part) eqn:Ea].
    - rewrite andb_false_iff in Hflag. destruct Hflag as [Ha|?]; [|discriminate].
      rewrite Ha in Hb.
      assert (doc <> "") as Hne.
      { destruct Hdoc as [?|H]; [done|]. apply Forall_cons in H as [H _].
        rewrite Er in H. discriminate. }
      destruct (blockChange_succeeds doc docUri li nextId Removed (Diff.value part) "")
        as [cd Hcd]; [lia|lia|done|].
      destruct (IH (li + Text.segmentLines (Diff.value part)) (nextId + 1))
        as [m Hm]; [lia|lia|done|done|right; left; lia|].
      rewrite Hcd. cbn [mbind Result_bind]. rewrite Hm. cbn. eauto.
    - destruct (insertChange_succeeds rev doc docUri li nextId (Diff.value part))
        as [cd Hcd]; [lia| |].
      { destruct Htop as [?|[?|H]]; [by left|by right|]. simpl in H. congruence. }
      destruct (IH li (nextId + 1)) as [m Hm]; [lia|lia|done|done| |].
      { destruct Htop as [?|[?|H]]; [by left|by right; left|].
        simpl in H. congruence. }
      rewrite Hcd. cbn [mbind Result_bind]. rewrite Hm. cbn. eauto.
    - destruct (IH (li + Text.segmentLines (Diff.value part)) nextId)
        as [m Hm]; [lia|lia|done|done|right; left; lia|]. eauto. }
  cbn [walk]. destruct rest as [|next rest']; [exact Halone|].
  destruct (Diff.removed part && Diff.added next) eqn:E; [|exact Halone].
  apply andb_true_iff in E as [Er Ea].
  rewrite Er in Hflag. rewrite andb_true_r in Hflag.
  simpl in Hb. rewrite Hflag, Ea in Hb.
  assert (doc <> "") as Hne.
  { destruct Hdoc as [?|H]; [done|]. apply Forall_cons in H as [H _].
    rewrite Er in H. discriminate. }
  destruct (blockChange_succeeds doc docUri li nextId Changed
              (Diff.value part) (Diff.value next)) as [cd Hcd];
    [lia|pose proof (oldLines_nonneg rest'); lia|done|].
  destruct (IH' next rest' eq_refl
              (li + Text.segmentLines (Diff.value part)) (nextId + 1))
    as [m Hm]; [lia|lia| | |right; left; lia|].
  { by apply Forall_cons in Hflags as [_ ?]. }
  { destruct Hdoc' as [?|H]; [by left|right]. by apply Forall_cons in H as [_ ?]. }
  rewrite Hcd. cbn [mbind Result_bind]. rewrite Hm. cbn. eauto.
Qed.

Lemma lineWise_flags (diffs : list Diff.ChangeObject) :
  lineWise diffs ->
  Forall (fun part => Diff.added part && Diff.removed part = false) diffs
  /\ Forall (fun part => Diff.value part <> "") diffs.
Proof.
  induction diffs as [|part rest IH]; [by split|].
  intros (Hv & Hf & _ & Hrest). destruct (IH Hrest). by split; constructor.
Qed.

Lemma oldText_empty (diffs : list Diff.ChangeObject) :
  Forall (fun part => Diff.value part <> "") diffs ->
  Forall (fun part => Diff.added part && Diff.removed part = false) diffs ->
  oldText diffs = "" -> Forall (fun part => Diff.removed part = false) diffs.
Proof.
  induction 1 as [|part rest Hv _ IH]; [done|].
  intros Hf Hold. apply Forall_cons in Hf as [Hf Hfs]. simpl in Hold.
  destruct (Diff.added part) eqn:Ea.
  - constructor; [done|by apply IH].
  - destruct (Diff.value part); [done|discriminate].
Qed.

(** X1 — [markChanges]. On the output of a line differ for the text of the
    document, [markChanges] returns: no line it asks of the document is
    outside the document. The revision that trims at the top needs the
    first segment not to be an added one. *)
Theorem markChanges_succeeds (rev : Revision) (st : State) (docUri : string)
    (doc : Document) (diffs : list Diff.ChangeObject) :
  documents st !! docUri = Some doc ->
  oldText diffs = doc ->
  lineWise diffs ->
  rev = TrimBelowTop \/ startsWithAdded diffs = false ->
  exists st', markChanges rev st docUri diffs = Ok st'.
Proof.
  intros Hdoc Hold Hlw Htop.
  destruct (lineWise_flags _ Hlw) as [Hflags Hvals].
  destruct (walk_succeeds rev doc docUri diffs 0 (nextChangeId st)) as [m Hm].
  - lia.
  - rewrite <- Hold. pose proof (oldLines_bound _ Hlw). lia.
  - done.
  - destruct (decide (doc = "")) as [->|]; [right|by left].
    by apply oldText_empty.
  - destruct Htop; [by left|by right; right].
  - unfold markChanges. rewrite Hdoc, Hm. cbn. eauto.
Qed.

Lemma markChanges_succeeds_witness :
  exists st',
    markChanges TrimAtTop (Scenario.fresh Scenario.local5) Scenario.uri Scenario.diffs5
    = Ok st'.
Proof.
  apply (markChanges_succeeds TrimAtTop (Scenario.fresh Scenario.local5) Scenario.uri
           Scenario.local5 Scenario.diffs5).
  - reflexivity.
  - reflexivity.
  - repeat split; try discriminate; reflexivity.
  - right. reflexivity.
Defined.

(** ** Accepting from the last change to the first *)

Lemma app_s_assoc (a b c : string) : (a +:+ b) +:+ c = a +:+ (b +:+ c).
Proof.
  induction a as [|x a IH]; [done|].
  change (String x (a +:+ b) +:+ c = String x (a +:+ (b +:+ c))).
  change (String x ((a +:+ b) +:+ c) = String x (a +:+ (b +:+ c))).
  by rewrite IH.
Qed.

Lemma take_s_app (a b : string) : Text.take_s (String.length a) (a +:+ b) = a.
Proof.
  induction a as [|x a IH]; [by destruct b|].
  change (String x (Text.take_s (String.length a) (a +:+ b)) = String x a).
  by rewrite IH.
Qed.

Lemma drop_s_app (a b : string) : Text.drop_s (String.length a) (a +:+ b) = b.
Proof.
  induction a as [|x a IH]; [by destruct b|].
  change (Text.drop_s (String.length a) (a +:+ b) = b). exact IH.
Qed.

Lemma splice_middle (a b c t : string) :
  spliceText (a +:+ b +:+ c) (String.length a) (String.length (a +:+ b)) t
  = a +:+ t +:+ c.
Proof.
  unfold spliceText. rewrite take_s_app.
  rewrite <- (app_s_assoc a b c), drop_s_app. reflexivity.
Qed.

Lemma endsWith_nl_app (a b : string) :
  Text.endsWith_nl b = true -> Text.endsWith_nl (a +:+ b) = true.
Proof.
  intros Hb. induction a as [|x a IH]; [done|].
  change (Text.endsWith_nl (String x (a +:+ b)) = true).
  cbn [Text.endsWith_nl]. destruct (a +:+ b) eqn:E; [|exact IH].
  destruct a; [|discriminate]. change (b = "") in E. by rewrite E in Hb.
Qed.

(** The offset of the start of a line, one character at a time. *)
Lemma offset_in_cons (c : ascii) (s : string) (k : nat) :
  offset_in (Text.split_nl (String c s)) (S k) 0
  = S (offset_in (Text.split_nl s) (if Ascii.eqb c Text.LF then k else S k) 0).
Proof.
  cbn [Text.split_nl]. pose proof (split_nl_length s) as Hlen.
  destruct (Ascii.eqb c Text.LF).
  - cbn [offset_in]. destruct (Text.split_nl s); simpl in *; [lia|done].
  - destruct (Text.split_nl s) as [|l ls]; simpl in *; [lia|].
    destruct ls; reflexivity.
Qed.

Lemma feeds_cons (c : ascii) (s : string) :
  feeds (String c s) = if Ascii.eqb c Text.LF then S (feeds s) else feeds s.
Proof.
  unfold feeds, Text.newlines. rewrite split_nl_cons_length.
  pose proof (split_nl_length s). destruct (Ascii.eqb c Text.LF); lia.
Qed.

Lemma endsWith_nl_feeds (s : string) :
  Text.endsWith_nl s = true -> (1 <= feeds s)%nat.
Proof.
  intros H. apply endsWith_nl_split in H. unfold feeds, Text.newlines. lia.
Qed.

(** After a text of complete lines, the next line starts where the text
    ends. *)
Lemma offsetAt_boundary (a b : string) :
  a = "" \/ Text.endsWith_nl a = true ->
  offsetAt (a +:+ b) (mkPos (Text.newlines a) 0) = String.length a.
Proof.
  unfold offsetAt, doc_lines. cbn [line character]. fold (feeds a).
  change (Z.to_nat 0) with 0%nat.
  induction a as [|c a IH]; intros Ha.
  - change ("" +:+ b) with b. pose proof (split_nl_length b).
    destruct (Text.split_nl b); simpl in *; [lia|done].
  - destruct Ha as [Ha|Ha]; [discriminate|].
    pose proof (endsWith_nl_feeds _ Ha) as Hpos.
    change (String c a +:+ b) with (String c (a +:+ b)).
    destruct (feeds (String c a)) as [|k] eqn:Ek; [lia|].
    rewrite offset_in_cons. cbn [String.length]. f_equal.
    rewrite feeds_cons in Ek.
    assert (Ha' : a = "" \/ Text.endsWith_nl a = true).
    { destruct a; [by left|right; exact Ha]. }
    destruct (Ascii.eqb c Text.LF) eqn:Ec.
    + injection Ek as <-. by apply IH.
    + rewrite <- Ek. apply IH. done.
Qed.


(** On complete lines, a block of the walk ends at the start of the line
    after it. *)
Lemma blockRange_complete (P v R : string) (li : Z) (r : Range) :
  li = Text.newlines P -> Text.endsWith_nl v = true ->
  blockRange (P +:+ v +:+ R) li (Text.segmentLines v) = Ok r ->
  r = mkRng (mkPos (Text.newlines P) 0) (mkPos (Text.newlines (P +:+ v)) 0).
Proof.
  intros -> Hv Hr.
  pose proof (segmentLines_pos v) as Hn.
  destruct (segmentLines_bound v) as [_ Hseg]. specialize (Hseg Hv).
  apply blockRange_Ok in Hr as (tl & _ & _ & ->); [|done].
  unfold lineEnd, lineCount, doc_lines.
  pose proof (newlines_nonneg R) as HR.
  assert (Hcount : Z.of_nat (length (Text.split_nl (P +:+ v +:+ R)))
                   = Text.newlines P + Text.newlines v + Text.newlines R + 1).
  { pose proof (newlines_app P (v +:+ R)) as H1.
    pose proof (newlines_app v R) as H2.
    unfold Text.newlines in *. lia. }
  rewrite Hcount.
  replace (Text.newlines P + Text.segmentLines v - 1
           <? Text.newlines P + Text.newlines v + Text.newlines R + 1 - 1)
    with true by (symmetry; apply Z.ltb_lt; lia).
  rewrite newlines_app. do 2 f_equal. lia.
Qed.






(** ** The line delta against the document *)

(** X3 — accept, the line delta of a removed block against the lines the
    document loses. For a block of complete lines [v] below the complete
    lines [P], the deletion of the block's range removes exactly [v], the
    document loses the block's lines, and the line delta of accept is one
    line more. *)
Theorem removed_lineDelta_one_too_many (P v R : string) (r : Range) (id : Z) :
  P = "" \/ Text.endsWith_nl P = true ->
  Text.endsWith_nl v = true ->
  blockRange (P +:+ v +:+ R) (Text.newlines P) (Text.segmentLines v) = Ok r ->
  let ch := PendingChange.mk id Removed r "" in
  applyEdit (P +:+ v +:+ R) (editOf ch) = P +:+ R
  /\ lineCount (P +:+ R) - lineCount (P +:+ v +:+ R) = - Text.segmentLines v
  /\ lineDelta ch = - (Text.segmentLines v + 1).
Proof.
  intros HP Hv Hr ch.
  destruct (segmentLines_bound v) as [_ Hseg]. specialize (Hseg Hv).
  apply blockRange_complete in Hr; [|done|done].
  assert (HPv : P +:+ v = "" \/ Text.endsWith_nl (P +:+ v) = true)
    by (right; by apply endsWith_nl_app).
  split; [|split].
  - unfold editOf, applyEdit. cbn [ch PendingChange.kind PendingChange.range].
    rewrite Hr. cbn [start end_].
    rewrite (offsetAt_boundary P _ HP).
    rewrite <- (app_s_assoc P v R), (offsetAt_boundary (P +:+ v) _ HPv).
    rewrite app_s_assoc. apply (splice_middle P v R "").
  - unfold lineCount, doc_lines.
    pose proof (newlines_app P R) as H1.
    pose proof (newlines_app P (v +:+ R)) as H2.
    pose proof (newlines_app v R) as H3.
    unfold Text.newlines in *. lia.
  - unfold lineDelta. cbn [ch PendingChange.kind PendingChange.range].
    rewrite Hr. cbn [start end_ line]. rewrite newlines_app. lia.
Qed.

Lemma removed_lineDelta_one_too_many_witness :
  let ch := Scenario.removal1 in
  applyEdit Scenario.local5 (editOf ch)
  = Text.unlines ["a"] +:+ Text.unlines ["c"; "d"; "e"]
  /\ lineCount (Text.unlines ["a"] +:+ Text.unlines ["c"; "d"; "e"])
     - lineCount Scenario.local5
     = - Text.segmentLines (Text.unlines ["b"])
  /\ lineDelta ch = - (Text.segmentLines (Text.unlines ["b"]) + 1).
Proof.
  apply (removed_lineDelta_one_too_many (Text.unlines ["a"]) (Text.unlines ["b"])
           (Text.unlines ["c"; "d"; "e"]) (mkRng (mkPos 1 0) (mkPos 2 0)) 1).
  - right. reflexivity.
  - reflexivity.
  - reflexivity.
Defined.



(** ** Disjoint ranges, spanned lines *)

Lemma precedes_disjoint (a b : PendingChange.t) :
  precedes a b -> ~ overlap (PendingChange.range a) (PendingChange.range b).
Proof.
  intros [Hab _] (p & [_ Hpa] & [Hbp _]).
  apply isBefore_spec in Hpa.
  apply isBeforeOrEqual_spec in Hab. apply isBeforeOrEqual_spec in Hbp. lia.
Qed.

Lemma overlap_sym (r1 r2 : Range) : overlap r1 r2 -> overlap r2 r1.
Proof. intros (p & ? & ?). by exists p. Qed.

Lemma filter_all {A : Type} (P : A -> Prop) `{!forall x, Decision (P x)} (l : list A) :
  Forall P l -> filter P l = l.
Proof.
  induction 1 as [|x l Hx _ IH]; [done|]. by rewrite filter_cons_True, IH.
Qed.

Lemma filter_none {A : Type} (P : A -> Prop) `{!forall x, Decision (P x)} (l : list A) :
  Forall (fun x => ~ P x) l -> filter P l = [].
Proof.
  induction 1 as [|x l Hx _ IH]; [done|]. by rewrite filter_cons_False.
Qed.

(** Counting the members of an interval among the first [N] numbers. *)
Lemma count_interval (P : Z -> Prop) `{!forall x, Decision (P x)} (N lo hi : Z) :
  0 <= lo -> lo <= hi + 1 -> hi < N ->
  (forall k, 0 <= k < N -> P k <-> lo <= k <= hi) ->
  Z.of_nat (length (filter P (seqZ 0 N))) = hi - lo + 1.
Proof.
  intros Hlo Hhi HN HP.
  replace N with (lo + ((hi - lo + 1) + (N - hi - 1))) by lia.
  rewrite seqZ_app by lia. rewrite seqZ_app by lia.
  rewrite !filter_app, !length_app.
  rewrite (filter_none P (seqZ 0 lo)); cycle 1.
  { apply Forall_forall. intros k Hk. apply elem_of_seqZ in Hk.
    rewrite HP by lia. lia. }
  rewrite (filter_all P (seqZ (0 + lo) _)); cycle 1.
  { apply Forall_forall. intros k Hk. apply elem_of_seqZ in Hk.
    rewrite HP by lia. lia. }
  rewrite (filter_none P (seqZ (0 + lo + _) _)); cycle 1.
  { apply Forall_forall. intros k Hk. apply elem_of_seqZ in Hk.
    rewrite HP by lia. lia. }
  rewrite length_seqZ. simpl. lia.
Qed.

Lemma coversLine_block (doc : Document) (li e k : Z) :
  0 <= li -> li <= e -> e < lineCount doc - 1 -> 0 <= k < lineCount doc ->
  coversLine doc (mkRng (mkPos li 0) (mkPos (e + 1) 0)) k = true <-> li <= k <= e.
Proof.
  intros Hli He Hlast Hk. unfold coversLine.
  destruct (lineAt_in_range doc k Hk) as [tl Htl]. rewrite Htl.
  destruct (lineAt_Ok _ _ _ Htl) as (_ & _ & _ & Hend).
  assert (Hstart : start (TextLine.rangeIncludingLineBreak tl) = mkPos k 0).
  { unfold lineAt in Htl.
    destruct ((k <? 0) || (lineCount doc <=? k)); [discriminate|].
    destruct (doc_lines doc !! Z.to_nat k); [|discriminate].
    injection Htl as <-. simpl. by destruct (k <? lineCount doc - 1). }
  rewrite Hstart, Hend. cbn [start end_].
  rewrite !andb_true_iff, !isBeforeOrEqual_spec, isBefore_spec.
  unfold lineEnd. pose proof (len_nonneg (TextLine.text tl)).
  destruct (k <? lineCount doc - 1) eqn:E;
    [apply Z.ltb_lt in E|apply Z.ltb_ge in E]; simpl; lia.
Qed.

(** A block of [n] lines that does not reach the last line of the document
    spans [n] lines, and its range ends [n] lines below its start. *)
Lemma blockRange_spans (doc : Document) (li n : Z) (r : Range) :
  0 <= li -> 1 <= n -> li + n < lineCount doc ->
  blockRange doc li n = Ok r ->
  spannedLines doc r = n /\ line (end_ r) - line (start r) = n.
Proof.
  intros Hli Hn Hb Hr.
  apply blockRange_Ok in Hr as (tl & _ & Htl & ->); [|done].
  unfold lineEnd.
  replace (li + n - 1 <? lineCount doc - 1) with true
    by (symmetry; apply Z.ltb_lt; lia).
  split; [|simpl; lia].
  unfold spannedLines.
  rewrite (count_interval _ (lineCount doc) li (li + n - 1)); try lia.
  intros k Hk. apply coversLine_block; lia.
Qed.

Lemma coversLine_last (doc : Document) (li k : Z) (l : string) :
  0 <= li -> li <= lineCount doc - 1 -> 0 < len l -> 0 <= k < lineCount doc ->
  doc_lines doc !! Z.to_nat (lineCount doc - 1) = Some l ->
  coversLine doc (mkRng (mkPos li 0) (mkPos (lineCount doc - 1) (len l))) k = true
  <-> li <= k <= lineCount doc - 1.
Proof.
  intros Hli He Hlen Hk Hl. unfold coversLine.
  destruct (lineAt_in_range doc k Hk) as [tl Htl]. rewrite Htl.
  destruct (lineAt_Ok _ _ _ Htl) as (_ & Htext & _ & Hend).
  assert (Hstart : start (TextLine.rangeIncludingLineBreak tl) = mkPos k 0).
  { unfold lineAt in Htl.
    destruct ((k <? 0) || (lineCount doc <=? k)); [discriminate|].
    destruct (doc_lines doc !! Z.to_nat k); [|discriminate].
    injection Htl as <-. simpl. by destruct (k <? lineCount doc - 1). }
  rewrite Hstart, Hend. cbn [start end_].
  rewrite !andb_true_iff, !isBeforeOrEqual_spec, isBefore_spec.
  unfold lineEnd.
  destruct (k <? lineCount doc - 1) eqn:E;
    [apply Z.ltb_lt in E|apply Z.ltb_ge in E]; simpl; [lia|].
  assert (k = lineCount doc - 1) as -> by lia.
  rewrite Hl in Htext. injection Htext as <-. lia.
Qed.

(** * The claims *)

(** C1 — the round trip fails on the code. Local text a, b, c, d, e
    against remote text a, c, e gives two removed records, on line 1 and on
    line 3. Accepting the first deletes one line of the document, but its
    line delta is -2: the second record is re-anchored to line 1 and its
    acceptance deletes line c. The ids taken in ascending order leave the
    text a, d, e; taken in descending order they leave the remote text. *)
Theorem accept_all_depends_on_order :
  tiles Scenario.local5 Scenario.remote3 Scenario.diffs5
  /\ run (Scenario.fresh Scenario.local5) [Pull TrimAtTop Scenario.uri Scenario.diffs5]
     = (Scenario.reviewing5, [1; 2])
  /\ lineDelta Scenario.removal1 = -2
  /\ lineCount (applyEdit Scenario.local5 (editOf Scenario.removal1))
     - lineCount Scenario.local5 = -1
  /\ (let ascending :=
        accept EditApplied (accept EditApplied Scenario.reviewing5 Scenario.uri 1)
               Scenario.uri 2 in
      pendingByDoc ascending !! Scenario.uri = None
      /\ documents ascending !! Scenario.uri = Some (Text.unlines ["a"; "d"; "e"])
      /\ documents ascending !! Scenario.uri <> Some Scenario.remote3)
  /\ (let descending :=
        accept EditApplied (accept EditApplied Scenario.reviewing5 Scenario.uri 2)
               Scenario.uri 1 in
      pendingByDoc descending !! Scenario.uri = None
      /\ documents descending !! Scenario.uri = Some Scenario.remote3).
Proof. repeat split; try (vm_compute; reflexivity). vm_compute. discriminate. Qed.

(** C2, as the code has it — the line delta of a replacement and of an
    insertion. For an added change the delta is the number of line feeds
    of the remote text. For a changed one whose range is the range built
    for a block of [n] lines at line [li]: when the block ends above the
    last line of the document, so that the range takes in the line break
    of its last line, the range spans [n] lines and the delta is the line
    feeds of the remote text minus the spanned lines; when the block ends
    with the last line of the document, which is not empty and has no line
    break, the range spans [n] lines and the delta is the line feeds of the
    remote text minus the spanned lines less one. *)
Theorem lineDelta_changed_added (doc : Document) (ch : PendingChange.t) (li n : Z) :
  0 <= li -> 1 <= n ->
  (PendingChange.kind ch = Added ->
     lineDelta ch = Text.newlines (PendingChange.remoteText ch))
  /\ (PendingChange.kind ch = Changed ->
      blockRange doc li n = Ok (PendingChange.range ch) ->
      li + n < lineCount doc ->
      spannedLines doc (PendingChange.range ch) = n
      /\ lineDelta ch
         = Text.newlines (PendingChange.remoteText ch)
           - spannedLines doc (PendingChange.range ch))
  /\ (PendingChange.kind ch = Changed ->
      blockRange doc li n = Ok (PendingChange.range ch) ->
      li + n = lineCount doc ->
      character (end_ (PendingChange.range ch)) <> 0 ->
      spannedLines doc (PendingChange.range ch) = n
      /\ lineDelta ch
         = Text.newlines (PendingChange.remoteText ch)
           - (spannedLines doc (PendingChange.range ch) - 1)).
Proof.
  intros Hli Hn. split; [|split].
  - intros Hk. unfold lineDelta. by rewrite Hk.
  - intros Hk Hr Hb.
    destruct (blockRange_spans doc li n _ Hli Hn Hb Hr) as [Hsp Hlines].
    split; [done|]. unfold lineDelta. rewrite Hk, Hsp. lia.
  - intros Hk Hr Hb Hc.
    apply blockRange_Ok in Hr as (tl & _ & Htl & Hrng); [|done].
    destruct (lineAt_Ok _ _ _ Htl) as (_ & Htext & _ & _).
    unfold lineEnd in Hrng.
    replace (li + n - 1 <? lineCount doc - 1) with false in Hrng
      by (symmetry; apply Z.ltb_ge; lia).
    rewrite Hrng in Hc. simpl in Hc.
    pose proof (len_nonneg (TextLine.text tl)) as Hlen.
    assert (Hsp : spannedLines doc (PendingChange.range ch) = n).
    { rewrite Hrng. unfold spannedLines.
      replace (li + n - 1) with (lineCount doc - 1) in * by lia.
      rewrite (count_interval _ (lineCount doc) li (lineCount doc - 1)); try lia.
      intros k Hk'. apply coversLine_last; try lia. done. }
    split; [done|]. unfold lineDelta. rewrite Hk, Hsp, Hrng. simpl. lia.
Qed.

Lemma lineDelta_changed_added_witness :
  lineDelta Scenario.insertionAt1
  = Text.newlines (PendingChange.remoteText Scenario.insertionAt1)
  /\ (spannedLines Scenario.local3 (PendingChange.range Scenario.replacement) = 1
      /\ lineDelta Scenario.replacement
         = Text.newlines (PendingChange.remoteText Scenario.replacement)
           - spannedLines Scenario.local3 (PendingChange.range Scenario.replacement))
  /\ (spannedLines Scenario.localOpen (PendingChange.range Scenario.replacementLast) = 1
      /\ lineDelta Scenario.replacementLast
         = Text.newlines (PendingChange.remoteText Scenario.replacementLast)
           - (spannedLines Scenario.localOpen
                (PendingChange.range Scenario.replacementLast) - 1)).
Proof.
  split; [|split].
  - destruct (lineDelta_changed_added Scenario.local3 Scenario.insertionAt1 1 1)
      as (H & _ & _); [lia|lia|].
    apply H. reflexivity.
  - destruct (lineDelta_changed_added Scenario.local3 Scenario.replacement 1 1)
      as (_ & H & _); [lia|lia|].
    apply H; [reflexivity|reflexivity|vm_compute; reflexivity].
  - destruct (lineDelta_changed_added Scenario.localOpen Scenario.replacementLast 1 1)
      as (_ & _ & H); [lia|lia|].
    apply H; [reflexivity|reflexivity|reflexivity|discriminate].
Defined.

(** C2, as stated, fails on a one-line replacement: the range built for
    the block spans one line, the stated delta is 1 - (1 - 1) = 1, and the
    delta of accept is 1 - (2 - 1) = 0, which is the change of the
    document's line count. *)
Lemma lineDelta_replacement_differs :
  run (Scenario.fresh Scenario.local3) [Pull TrimAtTop Scenario.uri Scenario.diffsB]
  = (Scenario.reviewingB, [1])
  /\ pendingOf Scenario.reviewingB Scenario.uri = [Scenario.replacement]
  /\ spannedLines Scenario.local3 (PendingChange.range Scenario.replacement) = 1
  /\ lineDelta_spec Scenario.local3 Scenario.replacement = 1
  /\ lineDelta Scenario.replacement = 0
  /\ lineCount (applyEdit Scenario.local3 (editOf Scenario.replacement))
     - lineCount Scenario.local3 = 0
  /\ lineDelta Scenario.replacement
     <> lineDelta_spec Scenario.local3 Scenario.replacement.
Proof. repeat split; try (vm_compute; reflexivity). vm_compute. discriminate. Qed.

(** C3 — accept then re-anchor. Let the document's list be [pre], then
    [A], then [post], with [A] the first record of its id, and let the
    edit not be rejected by the host. If every record of [post] can be
    moved by [lineDelta A] (its range is a legal range and its moved start
    line is not negative), then after accepting [A]: every record of [pre]
    is where and what it was; every record [B] of [post] has its start and
    end line increased by exactly [lineDelta A], its two columns, id, kind
    and remote text as before; and [A] is gone. *)
Theorem accept_reanchors_later (host : EditOutcome) (st : State) (docUri : string)
    (doc : Document) (pre post : list PendingChange.t) (A : PendingChange.t) :
  pendingByDoc st !! docUri = Some (pre ++ A :: post) ->
  Forall (fun c => PendingChange.id c <> PendingChange.id A) pre ->
  documents st !! docUri = Some doc ->
  host <> EditRejected ->
  Forall (movable (lineDelta A)) post ->
  let after := pendingOf (accept host st docUri (PendingChange.id A)) docUri in
  (forall (i : nat) (c : PendingChange.t), pre !! i = Some c -> after !! i = Some c)
  /\ (forall (j : nat) (B : PendingChange.t),
        post !! j = Some B ->
        exists B',
          after !! (length pre + j)%nat = Some B'
          /\ line (start (PendingChange.range B'))
             = line (start (PendingChange.range B)) + lineDelta A
          /\ line (end_ (PendingChange.range B'))
             = line (end_ (PendingChange.range B)) + lineDelta A
          /\ character (start (PendingChange.range B'))
             = character (start (PendingChange.range B))
          /\ character (end_ (PendingChange.range B'))
             = character (end_ (PendingChange.range B))
          /\ PendingChange.id B' = PendingChange.id B
          /\ PendingChange.kind B' = PendingChange.kind B
          /\ PendingChange.remoteText B' = PendingChange.remoteText B)
  /\ length after = (length pre + length post)%nat.
Proof.
  intros Hp Hpre Hdoc Hhost Hpost after.
  destruct (accept_resolved host st docUri doc pre post A Hp Hpre Hdoc Hhost Hpost)
    as [Hafter _].
  subst after. rewrite Hafter. repeat split.
  - intros i c Hi. by apply lookup_app_l_Some.
  - intros j B Hj. exists (shift (lineDelta A) B). split; [|done].
    rewrite lookup_app_r by lia.
    replace (length pre + j - length pre)%nat with j by lia.
    by rewrite list_lookup_fmap, Hj.
  - by rewrite length_app, length_fmap.
Qed.

Lemma accept_reanchors_later_witness :
  let after :=
    pendingOf (accept EditApplied Scenario.reviewing5 Scenario.uri
                 (PendingChange.id Scenario.removal1)) Scenario.uri in
  (forall (i : nat) (c : PendingChange.t),
      @nil PendingChange.t !! i = Some c -> after !! i = Some c)
  /\ (forall (j : nat) (B : PendingChange.t),
        [Scenario.removal2] !! j = Some B ->
        exists B',
          after !! (length (@nil PendingChange.t) + j)%nat = Some B'
          /\ line (start (PendingChange.range B'))
             = line (start (PendingChange.range B)) + lineDelta Scenario.removal1
          /\ line (end_ (PendingChange.range B'))
             = line (end_ (PendingChange.range B)) + lineDelta Scenario.removal1
          /\ character (start (PendingChange.range B'))
             = character (start (PendingChange.range B))
          /\ character (end_ (PendingChange.range B'))
             = character (end_ (PendingChange.range B))
          /\ PendingChange.id B' = PendingChange.id B
          /\ PendingChange.kind B' = PendingChange.kind B
          /\ PendingChange.remoteText B' = PendingChange.remoteText B)
  /\ length after = (length (@nil PendingChange.t) + length [Scenario.removal2])%nat.
Proof.
  apply (accept_reanchors_later EditApplied Scenario.reviewing5 Scenario.uri
           Scenario.local5 [] [Scenario.removal2] Scenario.removal1).
  - reflexivity.
  - constructor.
  - reflexivity.
  - discriminate.
  - constructor; [|constructor].
    unfold movable, range_wf. vm_compute. repeat split; discriminate.
Defined.

(** C4, as the code has it — a rejected edit. When the host rejects the
    [editor.edit] call (the promise rejects), accept leaves the store and
    the documents as they were: the change stays in its list and no other
    change is re-anchored. *)
Theorem accept_rejected_keeps_store (st : State) (docUri : string) (id : Z) :
  pendingByDoc (accept EditRejected st docUri id) = pendingByDoc st
  /\ documents (accept EditRejected st docUri id) = documents st.
Proof.
  unfold accept.
  destruct (pendingByDoc st !! docUri) as [pending|]; [|done].
  destruct (findIndex id pending) as [idx|]; [|done].
  destruct (pending !! idx) as [ch|]; [|done].
  destruct (documents st !! docUri) as [doc|]; done.
Qed.

(** C4, as stated, fails when the host answers that the edit was not
    applied (the promise resolves to [false]): the answer is not looked
    at, so the document keeps its text while the accepted change leaves
    the list and the other change is re-anchored. *)
Lemma accept_unapplied_changes_store :
  documents (accept EditNotApplied Scenario.reviewing5 Scenario.uri 1)
  = documents Scenario.reviewing5
  /\ pendingByDoc Scenario.reviewing5 !! Scenario.uri
     = Some [Scenario.removal1; Scenario.removal2]
  /\ pendingByDoc (accept EditNotApplied Scenario.reviewing5 Scenario.uri 1) !! Scenario.uri
     = Some [PendingChange.mk 2 Removed (mkRng (mkPos 1 0) (mkPos 2 0)) ""]
  /\ pendingByDoc (accept EditNotApplied Scenario.reviewing5 Scenario.uri 1)
     <> pendingByDoc Scenario.reviewing5.
Proof.
  split; [|split; [|split]]; try (vm_compute; reflexivity).
  intros H.
  assert (H' : pendingByDoc (accept EditNotApplied Scenario.reviewing5 Scenario.uri 1)
               !! Scenario.uri
               = pendingByDoc Scenario.reviewing5 !! Scenario.uri) by (by rewrite H).
  vm_compute in H'. discriminate H'.
Qed.

(** C5 — a removed segment directly followed by an added segment. When the
    walk stands at line [li] on a removed segment whose successor is an
    added one, it emits one record of kind [Changed]: its range starts at
    [(li, 0)] and ends at the end, line break included, of line
    [li + removedLinesCount - 1]; its remote text is the added segment's
    text. Both segments are consumed: the walk goes on with the segments
    after the added one, at line [li + removedLinesCount] and with the next
    id, and the records found there follow the emitted one. The last
    covered line has to be a line of the document, and the document not
    the empty text. *)
Theorem walk_merges_removed_added (rev : Revision) (doc : Document) (docUri : string)
    (part next : Diff.ChangeObject) (rest : list Diff.ChangeObject)
    (li nextId : Z) (tl : TextLine.t) :
  Diff.removed part = true -> Diff.added next = true ->
  0 <= li ->
  lineAt doc (li + Text.segmentLines (Diff.value part) - 1) = Ok tl ->
  doc <> "" ->
  let removedLinesCount := Text.segmentLines (Diff.value part) in
  let ch := PendingChange.mk nextId Changed
              (mkRng (mkPos li 0) (end_ (TextLine.rangeIncludingLineBreak tl)))
              (Diff.value next) in
  exists deco,
    walk rev doc docUri (part :: next :: rest) li nextId
    = (m ← walk rev doc docUri rest (li + removedLinesCount) (nextId + 1);
       mret (mkMarked (ch :: markedPending m)
                      (pushDeco Changed deco (markedDecos m))
                      (markedNextId m))).
Proof.
  intros Hr Ha Hli Htl Hdoc removedLinesCount ch.
  pose proof (segmentLines_pos (Diff.value part)) as Hn.
  destruct (lineAt_Ok _ _ _ Htl) as (He & _ & _ & Hend).
  destruct (blockRange_in_range doc li removedLinesCount) as (tl' & Htl' & Hrng);
    [done|done|unfold removedLinesCount; lia|].
  unfold removedLinesCount in Htl'. rewrite Htl in Htl'. injection Htl' as <-.
  destruct (trimRange_block doc li removedLinesCount tl Hli Hn Htl Hdoc) as [d Hd].
  exists (mkDeco d (makeHover ch docUri)).
  cbn [walk]. rewrite Hr, Ha. cbn [andb].
  unfold blockChange. fold removedLinesCount. rewrite Hrng.
  cbn [mbind Result_bind]. rewrite Hd. cbn [mbind Result_bind mret Result_ret fst snd].
  subst ch. rewrite Hend. reflexivity.
Qed.

Lemma walk_merges_removed_added_witness :
  exists deco,
    walk TrimAtTop Scenario.local3 Scenario.uri
      (Diff.remove (Text.unlines ["b"]) :: Diff.add (Text.unlines ["B"])
       :: [Diff.equal (Text.unlines ["c"])]) 1 1
    = (m ← walk TrimAtTop Scenario.local3 Scenario.uri
             [Diff.equal (Text.unlines ["c"])] (1 + 1) (1 + 1);
       mret (mkMarked (Scenario.replacement :: markedPending m)
                      (pushDeco Changed deco (markedDecos m))
                      (markedNextId m))).
Proof.
  apply (walk_merges_removed_added TrimAtTop Scenario.local3 Scenario.uri
           (Diff.remove (Text.unlines ["b"])) (Diff.add (Text.unlines ["B"]))
           [Diff.equal (Text.unlines ["c"])] 1 1
           (TextLine.mk 1 "b" (mkRng (mkPos 1 0) (mkPos 1 1))
                        (mkRng (mkPos 1 0) (mkPos 2 0)))).
  - reflexivity.
  - reflexivity.
  - lia.
  - reflexivity.
  - discriminate.
Defined.

(** C6 — order of the built list. Whatever the segment sequence, the list
    that [markChanges] stores for the document is in ascending order of
    start line, each range ending before or where the next one starts, and
    no two of its ranges have a position in common. *)
Theorem markChanges_ordered (rev : Revision) (st st' : State) (docUri : string)
    (diffs : list Diff.ChangeObject) :
  markChanges rev st docUri diffs = Ok st' ->
  ordered (pendingOf st' docUri)
  /\ (forall (i j : nat) (a b : PendingChange.t),
        pendingOf st' docUri !! i = Some a -> pendingOf st' docUri !! j = Some b ->
        i <> j -> ~ overlap (PendingChange.range a) (PendingChange.range b))
  /\ Forall (fun c => range_wf (PendingChange.range c)) (pendingOf st' docUri).
Proof.
  intros H. apply markChanges_Ok in H as (doc & m & _ & Hw & -> & _ & _).
  apply walk_sorted in Hw as [Hb Hs]; [|lia].
  assert (Hord : ordered (markedPending m)).
  { intros i j a b Hi Hj Hlt. by eapply (StronglySorted_lookup _ _ Hs). }
  split; [done|]. split.
  - intros i j a b Hi Hj Hne.
    destruct (decide (i < j)%nat) as [Hlt|Hge].
    + apply precedes_disjoint. by eapply Hord.
    + intros Ho. apply overlap_sym in Ho. revert Ho.
      apply precedes_disjoint. eapply Hord; eauto. lia.
  - eapply Forall_impl; [exact Hb|]. by intros c [? _].
Qed.

Lemma markChanges_ordered_witness :
  ordered (pendingOf Scenario.reviewing5 Scenario.uri)
  /\ (forall (i j : nat) (a b : PendingChange.t),
        pendingOf Scenario.reviewing5 Scenario.uri !! i = Some a ->
        pendingOf Scenario.reviewing5 Scenario.uri !! j = Some b ->
        i <> j -> ~ overlap (PendingChange.range a) (PendingChange.range b))
  /\ Forall (fun c => range_wf (PendingChange.range c))
            (pendingOf Scenario.reviewing5 Scenario.uri).
Proof.
  apply (markChanges_ordered TrimAtTop
           (show_editor Scenario.uri (Scenario.fresh Scenario.local5))
           Scenario.reviewing5 Scenario.uri Scenario.diffs5).
  vm_compute. reflexivity.
Defined.

(** C7 — unknown document or id. When the id is not the id of a pending
    change of the document (the document has no entry, or its list has no
    such id), accept and reject return the state as it is: store, documents,
    decorations, information messages and console are all unchanged. *)
Theorem unknown_change_is_noop (host : EditOutcome) (st : State) (docUri : string) (id : Z) :
  id ∉ (PendingChange.id <$> pendingOf st docUri) ->
  accept host st docUri id = st /\ reject st docUri id = st.
Proof.
  intros Hid. unfold accept, reject, pendingOf in *.
  destruct (pendingByDoc st !! docUri) as [pending|]; [|done].
  simpl in Hid. apply findIndex_None in Hid. by rewrite Hid.
Qed.

Lemma unknown_change_is_noop_witness :
  accept EditApplied Scenario.reviewing5 Scenario.uri 7 = Scenario.reviewing5
  /\ reject Scenario.reviewing5 Scenario.uri 7 = Scenario.reviewing5.
Proof.
  apply (unknown_change_is_noop EditApplied Scenario.reviewing5 Scenario.uri 7).
  vm_compute. intros H. by repeat (apply elem_of_cons in H as [H|H]; [discriminate|]);
    apply elem_of_nil in H.
Defined.

(** C8 — reject. With the ids of the document's list pairwise different,
    rejecting [id] leaves exactly the records whose id is not [id], each as
    it was (range included) and in the same order; the documents and the
    lists of the other documents are unchanged. *)
Theorem reject_removes_exactly (st : State) (docUri : string) (id : Z)
    (pending : list PendingChange.t) :
  pendingByDoc st !! docUri = Some pending ->
  NoDup (PendingChange.id <$> pending) ->
  pendingOf (reject st docUri id) docUri
  = filter (fun c => PendingChange.id c <> id) pending
  /\ documents (reject st docUri id) = documents st
  /\ (forall other, other <> docUri ->
        pendingByDoc (reject st docUri id) !! other = pendingByDoc st !! other).
Proof.
  intros Hp Hnd. unfold reject. rewrite Hp.
  destruct (findIndex id pending) as [idx|] eqn:E.
  - apply findIndex_Some in E as (pre & ch & post & -> & <- & <- & Hpre).
    rewrite delete_middle.
    assert (Hstore :
      pendingOf (set_pending (storeList docUri (pre ++ post)) st) docUri
      = filter (fun c => PendingChange.id c <> PendingChange.id ch) (pre ++ ch :: post)).
    { unfold pendingOf. simpl. rewrite storeList_lookup.
      by apply delete_first_with_id. }
    destruct (decide _); (split; [exact Hstore|split; [done|]]);
      intros other Hne; simpl; by apply storeList_lookup_ne.
  - split; [|done]. unfold pendingOf. rewrite Hp. simpl.
    apply findIndex_None in E. symmetry. clear Hp Hnd.
    induction pending as [|c l IH]; [done|].
    rewrite fmap_cons, not_elem_of_cons in E. destruct E as [Hc Hl].
    rewrite filter_cons_True by done. f_equal. by apply IH.
Qed.

Lemma reject_removes_exactly_witness :
  pendingOf (reject Scenario.reviewing5 Scenario.uri 1) Scenario.uri
  = filter (fun c => PendingChange.id c <> 1) [Scenario.removal1; Scenario.removal2]
  /\ documents (reject Scenario.reviewing5 Scenario.uri 1) = documents Scenario.reviewing5
  /\ (forall other, other <> Scenario.uri ->
        pendingByDoc (reject Scenario.reviewing5 Scenario.uri 1) !! other
        = pendingByDoc Scenario.reviewing5 !! other).
Proof.
  apply (reject_removes_exactly Scenario.reviewing5 Scenario.uri 1
           [Scenario.removal1; Scenario.removal2]).
  - reflexivity.
  - apply (bool_decide_unpack _). vm_compute. exact I.
Defined.

(** C9 — one counter for all documents. Along any run of commands, from
    any state, the ids given to the records that the [markChanges] calls
    store are strictly increasing in the order of their assignment, across
    calls and documents; each lies at or above the counter the run started
    with and below the counter it ends with, and the counter never goes
    down. *)
Theorem ids_strictly_increasing (st : State) (cs : list Command) :
  StronglySorted Z.lt (run st cs).2
  /\ Forall (fun i => nextChangeId st <= i < nextChangeId (run st cs).1) (run st cs).2
  /\ nextChangeId st <= nextChangeId (run st cs).1.
Proof.
  revert st. induction cs as [|c cs IH]; intros st; simpl.
  - repeat split; try constructor; lia.
  - destruct (step_ids st c) as (Hs1 & Hb1 & Hn1).
    destruct (IH (step st c).1) as (Hs2 & Hb2 & Hn2).
    split; [|split; [|lia]].
    + apply StronglySorted_lt_app with (n := nextChangeId (step st c).1); try done.
      * eapply Forall_impl; [exact Hb1|]. simpl. lia.
      * eapply Forall_impl; [exact Hb2|]. simpl. lia.
    + apply Forall_app. split.
      * eapply Forall_impl; [exact Hb1|]. simpl. lia.
      * eapply Forall_impl; [exact Hb2|]. simpl. lia.
Qed.

(** C10, as the code has it — trimming in the renderer. Every added record
    of the builder has the zero-width range at [(li, 0)], so its end column
    is 0. For a range whose end column is 0 the renderer takes the trimming
    branch: it asks the document for line [end.line - 1] and hands the end
    of that line to the range constructor as the end of the display range.
    When the start of the range is not after that position, the display
    range ends there, on line [end.line - 1]. For the zero-width range at
    [(li, 0)] the start is after it, the constructor swaps the two, and the
    display range runs from the end of line [li - 1] to [(li, 0)]. For a
    record that ends at [(0, 0)] and heads the list of a visible document,
    the line asked for is -1 and [refreshDecorationsFor] throws. *)
Theorem refresh_trims_at_column0 (doc : Document) (r : Range) :
  character (end_ r) = 0 ->
  (forall rev docUri li nextId addedText cd,
      insertChange rev doc docUri li nextId addedText = Ok cd ->
      PendingChange.kind cd.1 = Added
      /\ PendingChange.range cd.1 = mkRng (mkPos li 0) (mkPos li 0))
  /\ trimRange false doc r
     = (tl ← lineAt doc (line (end_ r) - 1);
        mret (newRange (start r)
                (mkPos (line (end_ r) - 1) (len (TextLine.text tl)))))
  /\ (forall tl,
        lineAt doc (line (end_ r) - 1) = Ok tl ->
        isBeforeOrEqual (start r)
          (mkPos (line (end_ r) - 1) (len (TextLine.text tl))) = true ->
        trimRange false doc r
        = Ok (mkRng (start r) (mkPos (line (end_ r) - 1) (len (TextLine.text tl)))))
  /\ (forall tl,
        lineAt doc (line (end_ r) - 1) = Ok tl ->
        start r = end_ r ->
        trimRange false doc r
        = Ok (mkRng (mkPos (line (end_ r) - 1) (len (TextLine.text tl))) (end_ r)))
  /\ (line (end_ r) = 0 ->
      forall st docUri ch rest,
        docUri ∈ visibleTextEditors st ->
        documents st !! docUri = Some doc ->
        pendingByDoc st !! docUri = Some (ch :: rest) ->
        PendingChange.range ch = r ->
        refreshDecorationsFor st docUri = Throw (IllegalLine (-1))).
Proof.
  intros Hc.
  assert (Htrim : trimRange false doc r
     = (tl ← lineAt doc (line (end_ r) - 1);
        mret (newRange (start r)
                (mkPos (line (end_ r) - 1) (len (TextLine.text tl)))))).
  { unfold trimRange. rewrite Hc. cbn [Z.eqb negb orb andb].
    destruct (lineAt doc (line (end_ r) - 1)) as [tl|e] eqn:Htl; [|done].
    cbn [mbind Result_bind].
    destruct (lineAt_Ok _ _ _ Htl) as (Hn & _ & -> & _). cbn [end_ character].
    rewrite newPosition_Ok by (pose proof (len_nonneg (TextLine.text tl)); lia).
    reflexivity. }
  split; [|split; [exact Htrim|split; [|split]]].
  - intros rev docUri li nextId addedText cd Hcd.
    apply insertChange_Ok in Hcd as [_ ->]. done.
  - intros tl Htl Hord. rewrite Htrim, Htl. cbn [mbind Result_bind mret Result_ret].
    by rewrite newRange_ordered.
  - intros tl Htl Hzero. rewrite Htrim, Htl. cbn [mbind Result_bind mret Result_ret].
    f_equal. unfold newRange.
    replace (isBefore (start r) (mkPos (line (end_ r) - 1) (len (TextLine.text tl))))
      with false; [by rewrite Hzero|].
    symmetry. apply isBefore_false. apply isBeforeOrEqual_spec.
    rewrite Hzero. simpl. lia.
  - intros Hl st docUri ch rest Hvis Hdoc Hp Hr.
    unfold refreshDecorationsFor. rewrite decide_True by done.
    rewrite Hdoc. unfold pendingOf. rewrite Hp.
    change (default [] (Some (ch :: rest))) with (ch :: rest). cbn [renderAll].
    rewrite Hr, Htrim, Hl.
    rewrite (lineAt_out_of_range doc (0 - 1)) by lia. reflexivity.
Qed.

Lemma refresh_trims_at_column0_witness :
  (PendingChange.kind Scenario.insertionAt1 = Added
   /\ PendingChange.range Scenario.insertionAt1 = mkRng (mkPos 1 0) (mkPos 1 0))
  /\ trimRange false Scenario.local3 (PendingChange.range Scenario.replacement)
     = Ok (mkRng (mkPos 1 0) (mkPos 1 1))
  /\ trimRange false Scenario.local3 (PendingChange.range Scenario.insertionAt1)
     = Ok (mkRng (mkPos 0 1) (mkPos 1 0))
  /\ refreshDecorationsFor Scenario.reviewingTop Scenario.uri = Throw (IllegalLine (-1)).
Proof.
  split; [|split; [|split]].
  - destruct (refresh_trims_at_column0 Scenario.local3
                (PendingChange.range Scenario.insertionAt1) eq_refl)
      as (H & _).
    apply (H TrimAtTop Scenario.uri 1 1 (Text.unlines ["X"])
             (Scenario.insertionAt1,
              mkDeco (mkRng (mkPos 0 1) (mkPos 1 0))
                     (makeHover Scenario.insertionAt1 Scenario.uri))).
    reflexivity.
  - destruct (refresh_trims_at_column0 Scenario.local3
                (PendingChange.range Scenario.replacement) eq_refl)
      as (_ & _ & H & _).
    apply (H (TextLine.mk 1 "b" (mkRng (mkPos 1 0) (mkPos 1 1))
                          (mkRng (mkPos 1 0) (mkPos 2 0)))); reflexivity.
  - destruct (refresh_trims_at_column0 Scenario.local3
                (PendingChange.range Scenario.insertionAt1) eq_refl)
      as (_ & _ & _ & H & _).
    apply (H (TextLine.mk 0 "a" (mkRng (mkPos 0 0) (mkPos 0 1))
                          (mkRng (mkPos 0 0) (mkPos 1 0)))); reflexivity.
  - destruct (refresh_trims_at_column0 Scenario.local3
                (PendingChange.range Scenario.insertionAtTop) eq_refl)
      as (_ & _ & _ & _ & H).
    apply (H eq_refl Scenario.reviewingTop Scenario.uri Scenario.insertionAtTop []).
    + apply (bool_decide_unpack _). vm_compute. exact I.
    + reflexivity.
    + reflexivity.
    + reflexivity.
Defined.

(** C10, as stated, fails for an insertion below the first line: the end
    column of its range is 0 and the trimming branch is taken, but the
    display range ends on the range's own end line, not on the line
    before. *)
Lemma added_display_range_keeps_end_line :
  character (end_ (PendingChange.range Scenario.insertionAt1)) = 0
  /\ lineAt Scenario.local3 (line (end_ (PendingChange.range Scenario.insertionAt1)) - 1)
     = Ok (TextLine.mk 0 "a" (mkRng (mkPos 0 0) (mkPos 0 1))
                       (mkRng (mkPos 0 0) (mkPos 1 0)))
  /\ trimRange false Scenario.local3 (PendingChange.range Scenario.insertionAt1)
     = Ok (mkRng (mkPos 0 1) (mkPos 1 0))
  /\ refreshDecorationsFor Scenario.reviewingMid Scenario.uri = Ok Scenario.reviewingMid
  /\ painted Scenario.reviewingMid !! Scenario.uri
     = Some (mkDecos [] []
               [mkDeco (mkRng (mkPos 0 1) (mkPos 1 0))
                       (mkHover (Text.unlines ["X"]) Scenario.uri 1)])
  /\ line (end_ (mkRng (mkPos 0 1) (mkPos 1 0)))
     <> line (end_ (PendingChange.range Scenario.insertionAt1)) - 1.
Proof. repeat split; try (vm_compute; reflexivity). vm_compute. discriminate. Qed.

(** * Further properties *)

(** ** The normalisation of the pull command *)

(** Induction over a text two characters at a time. *)
Lemma string_ind2 (P : string -> Prop) :
  P "" ->
  (forall c, P (String c "")) ->
  (forall c d s, P (String d s) -> P s -> P (String c (String d s))) ->
  forall s, P s.
Proof.
  intros H0 H1 H2 s.
  assert (H : P s /\ forall c, P (String c s)); [|apply H].
  induction s as [|d s [IHs IHc]]; [by split|].
  split; [apply IHc|]. intros c. by apply H2.
Qed.

Lemma newlines_cons (c : ascii) (s : string) :
  Text.newlines (String c s)
  = (if Ascii.eqb c Text.LF then 1 else 0) + Text.newlines s.
Proof.
  unfold Text.newlines. rewrite split_nl_cons_length.
  destruct (Ascii.eqb c Text.LF); lia.
Qed.

Lemma is_blank_not_LF (c : ascii) : Text.is_blank c = true -> Ascii.eqb c Text.LF = false.
Proof.
  unfold Text.is_blank. intros H. apply orb_true_iff in H as [H|H];
    apply Ascii.eqb_eq in H; by subst c.
Qed.

Lemma CR_not_LF (c : ascii) : Ascii.eqb c Text.CR = true -> Ascii.eqb c Text.LF = false.
Proof. intros H. apply Ascii.eqb_eq in H. by subst c. Qed.

Lemma strip_newlines (s : string) :
  Text.newlines (Text.strip_blank_before_nl s) = Text.newlines s.
Proof.
  induction s as [|c s IH]; [done|]. cbn [Text.strip_blank_before_nl].
  destruct (Text.is_blank c && Text.starts_nl (Text.strip_blank_before_nl s)) eqn:E.
  - apply andb_true_iff in E as [Hb _].
    rewrite newlines_cons, (is_blank_not_LF _ Hb), IH. lia.
  - by rewrite !newlines_cons, IH.
Qed.

Lemma replace_crlf_cons2 (c d : ascii) (s : string) :
  Text.replace_crlf (String c (String d s))
  = if Ascii.eqb c Text.CR && Ascii.eqb d Text.LF
    then String Text.LF (Text.replace_crlf s)
    else String c (Text.replace_crlf (String d s)).
Proof. reflexivity. Qed.

Lemma replace_crlf_newlines (s : string) :
  Text.newlines (Text.replace_crlf s) = Text.newlines s.
Proof.
  induction s as [|c|c d s IH1 IH2] using string_ind2; [done|done|].
  rewrite replace_crlf_cons2.
  destruct (Ascii.eqb c Text.CR && Ascii.eqb d Text.LF) eqn:E.
  - apply andb_true_iff in E as [Hc Hd].
    rewrite !newlines_cons, IH2, Hd, (CR_not_LF _ Hc).
    change (Ascii.eqb Text.LF Text.LF) with true. cbv iota. lia.
  - by rewrite (newlines_cons c (String d s)), newlines_cons, IH1.
Qed.

Lemma strip_no_blank (s : string) :
  blankBeforeNl (Text.strip_blank_before_nl s) = false.
Proof.
  induction s as [|c s IH]; [done|]. cbn [Text.strip_blank_before_nl].
  destruct (Text.is_blank c && Text.starts_nl (Text.strip_blank_before_nl s)) eqn:E;
    [done|].
  cbn [blankBeforeNl]. by rewrite E, IH.
Qed.

Lemma strip_fixed (s : string) :
  blankBeforeNl s = false -> Text.strip_blank_before_nl s = s.
Proof.
  induction s as [|c s IH]; [done|]. cbn [blankBeforeNl Text.strip_blank_before_nl].
  intros H. apply orb_false_iff in H as [H1 H2].
  rewrite (IH H2), H1. done.
Qed.

Lemma strip_length (s : string) :
  (String.length (Text.strip_blank_before_nl s) <= String.length s)%nat.
Proof.
  induction s as [|c s IH]; [done|]. cbn [Text.strip_blank_before_nl].
  destruct (_ && _); simpl; lia.
Qed.

Lemma replace_crlf_length (s : string) :
  (String.length (Text.replace_crlf s) <= String.length s)%nat
  /\ (hasCRLF s = true -> (String.length (Text.replace_crlf s) < String.length s)%nat).
Proof.
  induction s as [|c|c d s [IH1 IH1'] [IH2 IH2']] using string_ind2.
  - by split.
  - split; [done|]. cbn. rewrite andb_false_r. done.
  - rewrite replace_crlf_cons2. cbn [hasCRLF Text.starts_nl] in *.
    destruct (Ascii.eqb c Text.CR && Ascii.eqb d Text.LF) eqn:E.
    + cbn [String.length]. split; intros; lia.
    + cbn [String.length orb] in *.
      split; [lia|]. intros H. specialize (IH1' H). lia.
Qed.

Lemma replace_crlf_fixed (s : string) :
  hasCRLF s = false -> Text.replace_crlf s = s.
Proof.
  induction s as [|c|c d s IH1 IH2] using string_ind2; [done|done|].
  rewrite replace_crlf_cons2. cbn [hasCRLF Text.starts_nl] in *.
  intros H. apply orb_false_iff in H as [H1 H2].
  rewrite H1. by rewrite (IH1 H2).
Qed.

(** X5 — [normalize]. The normalised text has no space or tab directly
    before a line feed: the second replacement of [normalize] leaves no
    match of its own pattern. *)
Theorem normalize_no_blank_before_nl (content : string) :
  blankBeforeNl (Text.normalize content) = false.
Proof.
  unfold Text.normalize. generalize (Text.replace_crlf content). intros s.
  induction s as [|c s IH]; [done|]. cbn [Text.strip_blank_before_nl].
  destruct (Text.is_blank c && Text.starts_nl (Text.strip_blank_before_nl s)) eqn:E;
    [exact IH|].
  cbn [blankBeforeNl]. by rewrite E, IH.
Qed.

(** X6 — [normalize]. Normalising keeps every line feed and adds none: the
    normalised text has as many lines as the text itself, so a line number
    of the one is a line number of the other. *)
Theorem normalize_keeps_lines (content : string) :
  Text.newlines (Text.normalize content) = Text.newlines content
  /\ lineCount (Text.normalize content) = lineCount content.
Proof.
  assert (H : Text.newlines (Text.normalize content) = Text.newlines content).
  { unfold Text.normalize. by rewrite strip_newlines, replace_crlf_newlines. }
  split; [done|]. unfold lineCount, doc_lines. unfold Text.newlines in H. lia.
Qed.

(** X7 — [normalize]. The texts that [normalize] returns as they are, are
    the texts with no carriage return directly before a line feed and no
    space or tab directly before a line feed. *)
Theorem normalize_fixed_points (content : string) :
  Text.normalize content = content
  <-> hasCRLF content = false /\ blankBeforeNl content = false.
Proof.
  unfold Text.normalize. split.
  - intros H.
    pose proof (strip_length (Text.replace_crlf content)) as H1.
    destruct (replace_crlf_length content) as [H2 H3].
    rewrite H in H1.
    assert (hasCRLF content = false) as Hcr.
    { destruct (hasCRLF content); [|done]. specialize (H3 eq_refl). lia. }
    split; [done|]. rewrite (replace_crlf_fixed _ Hcr) in H.
    rewrite <- H. apply strip_no_blank.
  - intros [Hcr Hb]. rewrite (replace_crlf_fixed _ Hcr). by apply strip_fixed.
Qed.

(** ** The remote path of the deploy command *)

Lemma plain_app_dot (a b : string) : Deploy.plain (a +:+ String Deploy.DOT b) = false.
Proof.
  induction a as [|c a IH].
  - change ("" +:+ String Deploy.DOT b) with (String Deploy.DOT b). cbn.
    done.
  - change (String c a +:+ String Deploy.DOT b)
      with (String c (a +:+ String Deploy.DOT b)).
    cbn [Deploy.plain]. rewrite IH. apply andb_false_r.
Qed.

Lemma extensionAt_inner (c : ascii) (a b : string) :
  Deploy.extensionAt (String c (a +:+ String Deploy.DOT b)) = false.
Proof.
  pose proof (plain_app_dot a b) as H.
  unfold Deploy.extensionAt.
  destruct (a +:+ String Deploy.DOT b) as [|d t]; [done|].
  rewrite H. apply andb_false_r.
Qed.

Lemma stripExtension_final (stem ext : string) :
  ext <> "" -> Deploy.plain ext = true ->
  Deploy.stripExtension (stem +:+ String Deploy.DOT ext) = stem.
Proof.
  intros Hne Hp. induction stem as [|c stem IH].
  - change ("" +:+ String Deploy.DOT ext) with (String Deploy.DOT ext).
    destruct ext as [|d t]; [done|].
    cbn [Deploy.stripExtension Deploy.extensionAt]. rewrite Hp. done.
  - change (String c stem +:+ String Deploy.DOT ext)
      with (String c (stem +:+ String Deploy.DOT ext)).
    cbn [Deploy.stripExtension]. rewrite extensionAt_inner. by rewrite IH.
Qed.

Lemma forwardSlashes_no_backslash (s : string) :
  Deploy.occurs Deploy.BACKSLASH (Deploy.forwardSlashes s) = false.
Proof.
  induction s as [|c s IH]; [done|]. cbn [Deploy.forwardSlashes Deploy.occurs].
  rewrite IH, orb_false_r.
  destruct (Ascii.eqb c Deploy.BACKSLASH) eqn:E; [done|].
  by rewrite Ascii.eqb_sym.
Qed.

(** X8 — deploy, [relativePath.replace(/\.[^/.]+$/, "")]. The replacement
    returns the path as it is, or cuts it at a dot after which neither a dot
    nor a slash follows, the dot included: only what stands after the last
    dot can go, and only when no slash follows that dot. *)
Theorem stripExtension_cases (s : string) :
  Deploy.stripExtension s = s
  \/ exists stem ext,
       s = stem +:+ String Deploy.DOT ext
       /\ ext <> "" /\ Deploy.plain ext = true
       /\ Deploy.stripExtension s = stem.
Proof.
  induction s as [|c s IH]; [by left|]. cbn [Deploy.stripExtension].
  destruct (Deploy.extensionAt (String c s)) eqn:E.
  - right. exists "", s. unfold Deploy.extensionAt in E.
    destruct s as [|d t]; [done|]. apply andb_true_iff in E as [Hc Hp].
    apply Ascii.eqb_eq in Hc as ->. done.
  - destruct IH as [->|(stem & ext & -> & Hne & Hp & ->)]; [by left|].
    right. by exists (String c stem), ext.
Qed.

(** X9 — deploy, [apiPath]. For a file that is not [Layout.js] and is not
    sent as an entity, whose relative path ends with a dot and an extension
    (no dot and no slash in it), the path sent is the relative path without
    that last extension, every backslash turned into a slash; it holds no
    backslash. Dots before the last one stay. *)
Theorem apiPath_source_file (routes : Deploy.Routes) (f : Deploy.ActiveFile)
    (stem ext : string) :
  Deploy.relativePath f = stem +:+ String Deploy.DOT ext ->
  ext <> "" -> Deploy.plain ext = true ->
  Deploy.basename f <> "Layout.js" ->
  routes = Deploy.PagesAndComponents
  \/ String.prefix ("entities" +:+ Deploy.sep f) (Deploy.relativePath f) = false ->
  Deploy.apiPath routes f = Deploy.forwardSlashes stem
  /\ Deploy.occurs Deploy.BACKSLASH (Deploy.apiPath routes f) = false.
Proof.
  intros Hrel Hne Hp Hbase Hent.
  assert (H : Deploy.apiPath routes f = Deploy.forwardSlashes stem).
  { unfold Deploy.apiPath.
    assert (match routes with
            | Deploy.WithEntities =>
                String.prefix ("entities" +:+ Deploy.sep f) (Deploy.relativePath f)
            | Deploy.PagesAndComponents => false
            end = false) as ->.
    { destruct Hent as [->|Hent]; [done|]. by destruct routes. }
    destruct (String.eqb (Deploy.basename f) "Layout.js") eqn:E.
    - by apply String.eqb_eq in E.
    - by rewrite Hrel, stripExtension_final. }
  split; [done|]. rewrite H. apply forwardSlashes_no_backslash.
Qed.

Lemma apiPath_source_file_witness :
  Deploy.apiPath Deploy.WithEntities Cases.nestedPage = "pages/admin.v2/Home"
  /\ Deploy.occurs Deploy.BACKSLASH (Deploy.apiPath Deploy.WithEntities Cases.nestedPage)
     = false.
Proof.
  apply (apiPath_source_file Deploy.WithEntities Cases.nestedPage
           "pages\admin.v2\Home" "jsx").
  - reflexivity.
  - discriminate.
  - reflexivity.
  - discriminate.
  - right. reflexivity.
Defined.

(** ** Overwriting a document with the remote content *)












(** ** The pull command, file by file *)

Lemma ensure_documents (st : State) (p content q : string) (d : Document) :
  documents st !! q = Some d ->
  documents (ensureLocalFileExists st p content) !! q = Some d.
Proof.
  intros Hq. unfold ensureLocalFileExists.
  destruct (documents st !! p) eqn:E; [done|]. cbn.
  rewrite lookup_insert_ne; [done|]. intros <-. congruence.
Qed.



Lemma markChanges_frame (rev : Revision) (st st' : State) (docUri : string)
    (diffs : list Diff.ChangeObject) :
  markChanges rev st docUri diffs = Ok st' ->
  documents st' = documents st
  /\ consoleErrors st' = consoleErrors st
  /\ infoMessages st' = infoMessages st
  /\ visibleTextEditors st' = visibleTextEditors st.
Proof.
  unfold markChanges. destruct (documents st !! docUri); [|discriminate].
  intros H. bind_inv H. by injection H as <-.
Qed.


Lemma pullFile_documents (diffLines : string -> string -> list Diff.ChangeObject)
    (rev : Revision) (st : State) (n : nat) (entry : string * string)
    (q : string) (d : Document) :
  documents st !! q = Some d ->
  documents (reached (pullFile diffLines rev st n entry)) !! q = Some d.
Proof.
  intros Hq. unfold pullFile.
  pose proof (ensure_documents st entry.1 entry.2 q d Hq) as H1.
  destruct (differs _); [|done].
  destruct (documents (ensureLocalFileExists st entry.1 entry.2) !! entry.1); [|done].
  destruct (markChanges _ _ _ _) as [st3|e] eqn:E; cbn [reached]; [|done].
  apply markChanges_frame in E as (-> & _). done.
Qed.

Lemma pullFiles_documents (diffLines : string -> string -> list Diff.ChangeObject)
    (rev : Revision) (fileMap : list (string * string)) (q : string) (d : Document) :
  forall (st : State) (n : nat),
    documents st !! q = Some d ->
    documents (reached (pullFiles diffLines rev st n fileMap)) !! q = Some d.
Proof.
  induction fileMap as [|entry rest IH]; intros st n Hq; [done|].
  cbn [pullFiles].
  pose proof (pullFile_documents diffLines rev st n entry q d Hq) as H1.
  destruct (pullFile diffLines rev st n entry) as [st1 n1|st1 e]; [|done].
  by apply IH.
Qed.



(** X12 — pull. Whatever the differ answers and in both revisions, a pull
    changes the text of no file that exists: it creates the missing files
    and marks; the texts are touched by accept only. *)
Theorem pull_keeps_texts (diffLines : string -> string -> list Diff.ChangeObject)
    (rev : Revision) (st : State) (fileMap : list (string * string))
    (q : string) (d : Document) :
  documents st !! q = Some d ->
  documents (pull diffLines rev st fileMap) !! q = Some d.
Proof.
  intros Hq. unfold pull.
  pose proof (pullFiles_documents diffLines rev fileMap q d st 0 Hq) as H.
  by destruct (pullFiles diffLines rev st 0 fileMap).
Qed.

Lemma pull_keeps_texts_witness :
  documents (pull wholeText TrimAtTop Cases.onePage Cases.fileMap) !! Cases.home
  = Some (Text.unlines ["a"; "b"]).
Proof.
  apply (pull_keeps_texts wholeText TrimAtTop Cases.onePage Cases.fileMap Cases.home).
  reflexivity.
Defined.



Lemma pullFile_new_file (diffLines : string -> string -> list Diff.ChangeObject)
    (rev : Revision) (st : State) (n : nat) (p remote : string) :
  documents st !! p = None ->
  differs (diffLines (Text.normalize remote) (Text.normalize remote)) = false ->
  pullFile diffLines rev st n (p, remote)
  = Continue (show_information (newFileCreated p) (set_document p remote st)) n.
Proof.
  intros Hp Hd. unfold pullFile, ensureLocalFileExists. cbn [fst snd].
  rewrite Hp. cbn [documents set_document show_information].
  rewrite lookup_insert_eq. cbn [default from_option id]. by rewrite Hd.
Qed.

Lemma pullFiles_new_files (diffLines : string -> string -> list Diff.ChangeObject)
    (rev : Revision) (fileMap : list (string * string)) :
  NoDup fileMap.*1 ->
  Forall (fun e => differs (diffLines (Text.normalize e.2) (Text.normalize e.2)) = false)
         fileMap ->
  forall (st : State) (n : nat),
    Forall (fun e => documents st !! e.1 = None) fileMap ->
    exists st',
      pullFiles diffLines rev st n fileMap = Continue st' n
      /\ (forall p remote, (p, remote) ∈ fileMap -> documents st' !! p = Some remote)
      /\ (forall q, q ∉ fileMap.*1 -> documents st' !! q = documents st !! q)
      /\ pendingByDoc st' = pendingByDoc st
      /\ nextChangeId st' = nextChangeId st
      /\ infoMessages st' = infoMessages st ++ (newFileCreated <$> fileMap.*1).
Proof.
  induction fileMap as [|[p remote] rest IH]; intros Hnd Hsame st n Hnone.
  - exists st. cbn. rewrite app_nil_r. repeat split; try done.
    intros p remote H. by apply elem_of_nil in H.
  - rewrite fmap_cons in Hnd. apply NoDup_cons in Hnd as [Hp Hnd]. cbn [fst] in Hp.
    apply Forall_cons in Hsame as [Hsame1 Hsame]. cbn [snd] in Hsame1.
    apply Forall_cons in Hnone as [Hnone1 Hnone]. cbn [fst] in Hnone1.
    set (st1 := show_information (newFileCreated p) (set_document p remote st)).
    destruct (IH Hnd Hsame st1 n) as (st' & Hrun & Hdocs & Hout & Hstore & Hid & Hmsg).
    { apply Forall_forall. intros [q r] Hq. cbn [fst documents st1 show_information
        set_document]. rewrite lookup_insert_ne.
      - rewrite Forall_forall in Hnone. by apply (Hnone (q, r)).
      - intros ->. apply Hp. apply list_elem_of_fmap. by exists (q, r). }
    exists st'. cbn [pullFiles]. rewrite (pullFile_new_file _ _ _ _ _ _ Hnone1 Hsame1).
    fold st1. split; [done|]. split; [|split; [|split; [done|split; [done|]]]].
    + intros q r Hqr. apply elem_of_cons in Hqr as [[= -> ->]|Hqr]; [|by apply Hdocs].
      rewrite (Hout p Hp). cbn. by rewrite lookup_insert_eq.
    + intros q Hq. rewrite fmap_cons, not_elem_of_cons in Hq. destruct Hq as [Hqp Hq].
      rewrite (Hout q Hq). cbn. by rewrite lookup_insert_ne.
    + rewrite Hmsg. cbn. by rewrite <- app_assoc.
Qed.

(** X14 — pull. Files of the map that the workspace does not have are
    created with the remote content as it came; when the differ reports no
    change between a text and itself, none of them is put under review:
    the store and the id counter stay as they were, and the messages are
    one per created file, in the order of the map, and then the closing
    message that no changes were found. *)
Theorem pull_creates_missing_files
    (diffLines : string -> string -> list Diff.ChangeObject) (rev : Revision)
    (st : State) (fileMap : list (string * string)) :
  NoDup fileMap.*1 ->
  Forall (fun e => documents st !! e.1 = None) fileMap ->
  Forall (fun e => differs (diffLines (Text.normalize e.2) (Text.normalize e.2)) = false)
         fileMap ->
  let st' := pull diffLines rev st fileMap in
  (forall p remote, (p, remote) ∈ fileMap -> documents st' !! p = Some remote)
  /\ pendingByDoc st' = pendingByDoc st
  /\ nextChangeId st' = nextChangeId st
  /\ infoMessages st'
     = infoMessages st ++ (newFileCreated <$> fileMap.*1) ++ [noChangesFound].
Proof.
  intros Hnd Hnone Hsame.
  destruct (pullFiles_new_files diffLines rev fileMap Hnd Hsame st 0%nat Hnone)
    as (st1 & Hrun & Hdocs & _ & Hstore & Hid & Hmsg).
  unfold pull. rewrite Hrun. cbn. rewrite Hmsg, <- app_assoc. done.
Qed.

Lemma pull_creates_missing_files_witness :
  let st' := pull wholeText TrimAtTop Cases.emptyWorkspace Cases.fileMap in
  (forall p remote, (p, remote) ∈ Cases.fileMap -> documents st' !! p = Some remote)
  /\ pendingByDoc st' = pendingByDoc Cases.emptyWorkspace
  /\ nextChangeId st' = nextChangeId Cases.emptyWorkspace
  /\ infoMessages st'
     = infoMessages Cases.emptyWorkspace
       ++ (newFileCreated <$> Cases.fileMap.*1) ++ [noChangesFound].
Proof.
  apply (pull_creates_missing_files wholeText TrimAtTop Cases.emptyWorkspace
           Cases.fileMap).
  - apply (bool_decide_unpack _). vm_compute. exact I.
  - repeat constructor.
  - repeat constructor.
Defined.

(** ** The first paint and the repaint *)

Lemma blockChange_deco (doc : Document) (docUri : string) (li nextId : Z)
    (k : ChangeKind) (removedText remote : string)
    (cd : PendingChange.t * DecorationOptions) :
  blockChange doc docUri li nextId k removedText remote = Ok cd ->
  PendingChange.kind cd.1 = k
  /\ exists d, trimRange false doc (PendingChange.range cd.1) = Ok d
            /\ cd.2 = mkDeco d (makeHover cd.1 docUri).
Proof.
  unfold blockChange. intros H.
  bind_inv H. rename a into r. bind_inv H. rename a into d. injection H as <-.
  split; [done|]. by exists d.
Qed.

Lemma insertChange_deco (rev : Revision) (doc : Document) (docUri : string)
    (li nextId : Z) (addedText : string)
    (cd : PendingChange.t * DecorationOptions) :
  insertChange rev doc docUri li nextId addedText = Ok cd ->
  PendingChange.kind cd.1 = Added
  /\ PendingChange.range cd.1 = mkRng (mkPos li 0) (mkPos li 0)
  /\ exists d, trimRange (belowTopOnly rev) doc (PendingChange.range cd.1) = Ok d
            /\ cd.2 = mkDeco d (makeHover cd.1 docUri).
Proof.
  unfold insertChange. intros H.
  bind_inv H. apply newRange4_point in Ha as (Hli & ->).
  bind_inv H. rename a into d. injection H as <-.
  split; [done|]. split; [done|]. by exists d.
Qed.

Lemma trimRange_below_top (rev : Revision) (doc : Document) (li : Z) :
  rev = TrimAtTop \/ 1 <= li ->
  trimRange (belowTopOnly rev) doc (mkRng (mkPos li 0) (mkPos li 0))
  = trimRange false doc (mkRng (mkPos li 0) (mkPos li 0)).
Proof.
  intros [->|Hli]; [done|]. unfold trimRange. cbn [end_ line character negb orb].
  replace (0 <? li) with true by (symmetry; apply Z.ltb_lt; lia).
  by rewrite orb_true_r.
Qed.

Lemma renderAll_cons (doc : Document) (docUri : string) (ch : PendingChange.t)
    (rest : list PendingChange.t) (d : Range) (ds : Decorations) :
  trimRange false doc (PendingChange.range ch) = Ok d ->
  renderAll doc docUri rest = Ok ds ->
  renderAll doc docUri (ch :: rest)
  = Ok (pushDeco (PendingChange.kind ch) (mkDeco d (makeHover ch docUri)) ds).
Proof. intros Hd Hds. cbn [renderAll]. rewrite Hd. cbn. rewrite Hds. done. Qed.

(** The decorations of a walk are those of the display transform on its
    records, unless an insertion above the first line was left untrimmed. *)
Lemma walk_decos (rev : Revision) (doc : Document) (docUri : string)
    (diffs : list Diff.ChangeObject) :
  forall (li nextId : Z) (m : Marked),
    0 <= li ->
    rev = TrimAtTop \/ 1 <= li \/ startsWithAdded diffs = false ->
    walk rev doc docUri diffs li nextId = Ok m ->
    renderAll doc docUri (markedPending m) = Ok (markedDecos m).
Proof.
  induction diffs as [|part rest IH IH'] using walk_ind; intros li nextId m Hli0 Htop H.
  - by injection H as <-.
  - pose proof (segmentLines_pos (Diff.value part)) as Hn.
    destruct (walk_cons_inv _ _ _ _ _ _ _ _ H)
      as [next rest' cd m' -> _ _ Hcd Hw ->|cd m' _ Hcd Hw ->|cd m' Hr Ha Hcd Hw ->|_ _ Hw].
    + apply blockChange_deco in Hcd as (Hk & d & Hd & Hdeco).
      apply (IH' next rest' eq_refl) in Hw.
      * cbn [emit markedPending markedDecos]. rewrite Hdeco.
        by apply renderAll_cons.
      * lia.
      * destruct Htop as [?|_]; [by left|right; left]. lia.
    + apply blockChange_deco in Hcd as (Hk & d & Hd & Hdeco).
      apply IH in Hw.
      * cbn [emit markedPending markedDecos]. rewrite Hdeco.
        by apply renderAll_cons.
      * lia.
      * destruct Htop as [?|_]; [by left|right; left]. lia.
    + pose proof (insertChange_Ok _ _ _ _ _ _ _ Hcd) as [Hli _].
      apply insertChange_deco in Hcd as (Hk & Hrng & d & Hd & Hdeco).
      assert (Htop' : rev = TrimAtTop \/ 1 <= li).
      { destruct Htop as [?|[?|Hs]]; [by left|by right|]. simpl in Hs. congruence. }
      apply IH in Hw.
      * cbn [emit markedPending markedDecos]. rewrite Hdeco.
        apply renderAll_cons; [|done].
        rewrite Hrng in *. by rewrite <- (trimRange_below_top rev doc li Htop').
      * done.
      * destruct Htop' as [?|?]; [by left|by right; left].
    + apply IH in Hw; [done|lia|].
      destruct Htop as [?|_]; [by left|right; left]. lia.
Qed.

(** X15 — [markChanges] and [refreshDecorationsFor]. The decorations that
    a successful [markChanges] paints are the ones a refresh of the document
    computes from the stored list: refreshing right after does not throw
    and leaves the state as it is. This holds for the revision that trims
    above the first line, and for the other one when the first segment is
    not an added one. *)
Theorem refresh_after_markChanges (rev : Revision) (st st' : State) (docUri : string)
    (diffs : list Diff.ChangeObject) :
  markChanges rev st docUri diffs = Ok st' ->
  docUri ∈ visibleTextEditors st ->
  rev = TrimAtTop \/ startsWithAdded diffs = false ->
  refreshDecorationsFor st' docUri = Ok st'.
Proof.
  unfold markChanges. destruct (documents st !! docUri) as [doc|] eqn:Hdoc; [|done].
  intros H Hvis Htop. bind_inv H. rename a into m. injection H as <-.
  apply walk_decos in Ha; [|lia|destruct Htop; [by left|by right; right]].
  unfold refreshDecorationsFor.
  cbn [visibleTextEditors documents set_decorations set_pending set_nextChangeId].
  rewrite decide_True by done. rewrite Hdoc.
  unfold pendingOf. cbn [pendingByDoc set_decorations set_pending set_nextChangeId].
  rewrite lookup_insert_eq. cbn [default from_option id]. rewrite Ha.
  cbn. unfold set_decorations. cbn. by rewrite insert_insert_eq.
Qed.

Lemma refresh_after_markChanges_witness :
  refreshDecorationsFor Scenario.reviewing5 Scenario.uri = Ok Scenario.reviewing5.
Proof.
  apply (refresh_after_markChanges TrimAtTop
           (show_editor Scenario.uri (Scenario.fresh Scenario.local5))
           Scenario.reviewing5 Scenario.uri Scenario.diffs5).
  - vm_compute. reflexivity.
  - apply (bool_decide_unpack _). vm_compute. exact I.
  - left. reflexivity.
Defined.

(** ** The display transform, record by record *)

Lemma trimRange_Ok_iff (doc : Document) (r : Range) :
  (exists d, trimRange false doc r = Ok d)
  <-> (character (end_ r) = 0 -> 1 <= line (end_ r) <= lineCount doc).
Proof.
  unfold trimRange. cbn [negb orb]. rewrite andb_true_r.
  destruct (character (end_ r) =? 0) eqn:E.
  - apply Z.eqb_eq in E. split.
    + intros [d Hd] _.
      destruct (lineAt doc (line (end_ r) - 1)) as [tl|e] eqn:Htl; [|discriminate].
      apply lineAt_Ok in Htl as (Hn & _). lia.
    + intros Hn. specialize (Hn E).
      destruct (lineAt_in_range doc (line (end_ r) - 1)) as [tl Htl]; [lia|].
      rewrite Htl. cbn [mbind Result_bind].
      destruct (lineAt_Ok _ _ _ Htl) as (_ & _ & -> & _). cbn [end_ character].
      rewrite newPosition_Ok by (pose proof (len_nonneg (TextLine.text tl)); lia).
      cbn. eauto.
  - apply Z.eqb_neq in E. split; [done|]. intros _. cbn. eauto.
Qed.

Lemma renderAll_Ok_iff (doc : Document) (docUri : string)
    (pending : list PendingChange.t) :
  (exists ds, renderAll doc docUri pending = Ok ds) <-> Forall (trimmable doc) pending.
Proof.
  induction pending as [|ch rest IH]; [split; [constructor|cbn; eauto]|].
  rewrite Forall_cons. unfold trimmable at 1.
  rewrite <- (trimRange_Ok_iff doc (PendingChange.range ch)), <- IH.
  cbn [renderAll]. split.
  - intros [ds H]. bind_inv H. bind_inv H. eauto.
  - intros [[d ->] [ds ->]]. cbn. eauto.
Qed.

Lemma renderAll_hovers (doc : Document) (docUri : string)
    (pending : list PendingChange.t) (ds : Decorations) :
  renderAll doc docUri pending = Ok ds ->
  hoverMessage <$> removedDecos ds = hoversOf docUri Removed pending
  /\ hoverMessage <$> changedDecos ds = hoversOf docUri Changed pending
  /\ hoverMessage <$> addedDecos ds = hoversOf docUri Added pending.
Proof.
  revert ds. induction pending as [|ch rest IH]; intros ds H.
  - by injection H as <-.
  - cbn [renderAll] in H. bind_inv H. rename a into d. bind_inv H. rename a into ds'.
    injection H as <-. destruct (IH ds' Ha0) as (Hr & Hc & Had).
    unfold hoversOf in *. rewrite !filter_cons.
    destruct (PendingChange.kind ch) eqn:Ek;
      cbn [pushDeco removedDecos changedDecos addedDecos];
      repeat (destruct (decide _); try congruence);
      rewrite ?fmap_cons; cbn [hoverMessage]; repeat split; congruence.
Qed.

(** X16 — [refreshDecorationsFor]. For a visible document, the refresh
    returns exactly when every pending range that ends at column 0 ends
    below the first line and not below the line after the last one;
    otherwise asking the document for the line before the end throws. *)
Theorem refresh_returns_iff (st : State) (docUri : string) (doc : Document) :
  docUri ∈ visibleTextEditors st ->
  documents st !! docUri = Some doc ->
  (exists st', refreshDecorationsFor st docUri = Ok st')
  <-> Forall (trimmable doc) (pendingOf st docUri).
Proof.
  intros Hvis Hdoc. rewrite <- (renderAll_Ok_iff doc docUri).
  unfold refreshDecorationsFor. rewrite decide_True by done. rewrite Hdoc.
  split.
  - intros [st' H]. bind_inv H. eauto.
  - intros [ds ->]. cbn. eauto.
Qed.

Lemma refresh_returns_iff_witness :
  (exists st', refreshDecorationsFor Scenario.reviewing5 Scenario.uri = Ok st')
  <-> Forall (trimmable Scenario.local5) (pendingOf Scenario.reviewing5 Scenario.uri).
Proof.
  apply (refresh_returns_iff Scenario.reviewing5 Scenario.uri Scenario.local5).
  - apply (bool_decide_unpack _). vm_compute. exact I.
  - reflexivity.
Defined.

(** X17 — [refreshDecorationsFor]. A refresh that returns paints one
    decoration per pending change of the document and no other: each of the
    three groups holds, in list order, the hovers of the changes of its
    kind, each with the change's remote text, the document's uri and the
    change's id. Store, documents and id counter are as they were. *)
Theorem refresh_paints_by_kind (st st' : State) (docUri : string) (doc : Document) :
  docUri ∈ visibleTextEditors st ->
  documents st !! docUri = Some doc ->
  refreshDecorationsFor st docUri = Ok st' ->
  (exists ds,
     painted st' !! docUri = Some ds
     /\ hoverMessage <$> removedDecos ds = hoversOf docUri Removed (pendingOf st docUri)
     /\ hoverMessage <$> changedDecos ds = hoversOf docUri Changed (pendingOf st docUri)
     /\ hoverMessage <$> addedDecos ds = hoversOf docUri Added (pendingOf st docUri))
  /\ pendingByDoc st' = pendingByDoc st
  /\ documents st' = documents st
  /\ nextChangeId st' = nextChangeId st.
Proof.
  intros Hvis Hdoc. unfold refreshDecorationsFor.
  rewrite decide_True by done. rewrite Hdoc.
  intros H. bind_inv H. rename a into ds. injection H as <-.
  split; [|done]. exists ds. split; [cbn; by rewrite lookup_insert_eq|].
  by apply (renderAll_hovers doc).
Qed.

Lemma refresh_paints_by_kind_witness :
  (exists ds,
     painted Scenario.reviewing5 !! Scenario.uri = Some ds
     /\ hoverMessage <$> removedDecos ds
        = hoversOf Scenario.uri Removed (pendingOf Scenario.reviewing5 Scenario.uri)
     /\ hoverMessage <$> changedDecos ds
        = hoversOf Scenario.uri Changed (pendingOf Scenario.reviewing5 Scenario.uri)
     /\ hoverMessage <$> addedDecos ds
        = hoversOf Scenario.uri Added (pendingOf Scenario.reviewing5 Scenario.uri))
  /\ pendingByDoc Scenario.reviewing5 = pendingByDoc Scenario.reviewing5
  /\ documents Scenario.reviewing5 = documents Scenario.reviewing5
  /\ nextChangeId Scenario.reviewing5 = nextChangeId Scenario.reviewing5.
Proof.
  apply (refresh_paints_by_kind Scenario.reviewing5 Scenario.reviewing5 Scenario.uri
           Scenario.local5).
  - apply (bool_decide_unpack _). vm_compute. exact I.
  - reflexivity.
  - vm_compute. reflexivity.
Defined.

(** ** Resolving twice, resolving in either order *)

Lemma reject_unknown (st : State) (docUri : string) (id : Z) :
  id ∉ (PendingChange.id <$> pendingOf st docUri) -> reject st docUri id = st.
Proof.
  unfold pendingOf, reject. destruct (pendingByDoc st !! docUri) as [pending|]; [|done].
  change (default [] (Some pending)) with pending.
  intros H. apply findIndex_None in H. by rewrite H.
Qed.

Lemma accept_unknown (host : EditOutcome) (st : State) (docUri : string) (id : Z) :
  id ∉ (PendingChange.id <$> pendingOf st docUri) -> accept host st docUri id = st.
Proof.
  unfold pendingOf, accept. destruct (pendingByDoc st !! docUri) as [pending|]; [|done].
  change (default [] (Some pending)) with pending.
  intros H. apply findIndex_None in H. by rewrite H.
Qed.

Lemma reject_known (st : State) (docUri : string) (id : Z)
    (pending : list PendingChange.t) :
  pendingByDoc st !! docUri = Some pending ->
  NoDup (PendingChange.id <$> pending) ->
  id ∈ (PendingChange.id <$> pending) ->
  reject st docUri id
  = rejectedTo st docUri (filter (fun c => PendingChange.id c <> id) pending).
Proof.
  intros Hp Hnd Hin. unfold reject. rewrite Hp.
  destruct (findIndex id pending) as [idx|] eqn:E;
    [|by apply findIndex_None in E].
  apply findIndex_Some in E as (pre & ch & post & -> & <- & <- & Hpre).
  rewrite delete_middle. by rewrite (delete_first_with_id pre post ch Hnd).
Qed.

Lemma pendingOf_rejectedTo (st : State) (docUri : string)
    (remaining : list PendingChange.t) :
  pendingOf (rejectedTo st docUri remaining) docUri = remaining.
Proof.
  unfold rejectedTo, pendingOf. destruct (decide _); cbn; apply storeList_lookup.
Qed.

Lemma storeList_twice (docUri : string) (l1 l2 : list PendingChange.t)
    (m : gmap string (list PendingChange.t)) :
  storeList docUri l2 (storeList docUri l1 m) = storeList docUri l2 m.
Proof.
  destruct l1, l2; cbn [storeList].
  - apply delete_delete_eq.
  - apply insert_delete_eq.
  - apply delete_insert_eq.
  - apply insert_insert_eq.
Qed.

Lemma rejectedTo_twice (st : State) (docUri : string)
    (l1 l2 : list PendingChange.t) :
  rejectedTo (rejectedTo st docUri l1) docUri l2 = rejectedTo st docUri l2.
Proof.
  unfold rejectedTo. cbn [visibleTextEditors set_pending].
  destruct (decide (docUri ∈ visibleTextEditors st)).
  - cbn [visibleTextEditors set_decorations set_pending].
    rewrite decide_True by done. unfold set_decorations, set_pending. cbn.
    by rewrite storeList_twice, insert_insert_eq.
  - cbn [visibleTextEditors set_pending]. rewrite decide_False by done.
    unfold set_pending. cbn. by rewrite storeList_twice.
Qed.

Lemma filter_ids_subseteq (id : Z) (pending : list PendingChange.t) (i : Z) :
  i ∈ (PendingChange.id <$> filter (fun c => PendingChange.id c <> id) pending) ->
  i <> id /\ i ∈ (PendingChange.id <$> pending).
Proof.
  rewrite !list_elem_of_fmap. intros (c & -> & Hc).
  apply list_elem_of_filter in Hc as [Hne Hc]. split; [done|]. by exists c.
Qed.

Lemma filter_ids_NoDup (id : Z) (pending : list PendingChange.t) :
  NoDup (PendingChange.id <$> pending) ->
  NoDup (PendingChange.id <$> filter (fun c => PendingChange.id c <> id) pending).
Proof.
  intros Hnd. eapply sublist_NoDup; [exact Hnd|]. apply fmap_sublist, sublist_filter.
Qed.

Lemma pendingOf_Some (st : State) (docUri : string) (i : Z) :
  i ∈ (PendingChange.id <$> pendingOf st docUri) ->
  pendingByDoc st !! docUri = Some (pendingOf st docUri).
Proof.
  unfold pendingOf. destruct (pendingByDoc st !! docUri); [done|].
  cbn. intros H. by apply elem_of_nil in H.
Qed.

Lemma rejectedTo_Some (st : State) (docUri : string)
    (remaining : list PendingChange.t) (i : Z) :
  i ∈ (PendingChange.id <$> remaining) ->
  pendingByDoc (rejectedTo st docUri remaining) !! docUri = Some remaining.
Proof.
  intros Hi. rewrite <- (pendingOf_rejectedTo st docUri remaining) at 2.
  apply (pendingOf_Some _ _ i). by rewrite pendingOf_rejectedTo.
Qed.

(** X18 — reject. With pairwise different ids in the document's list,
    rejecting an id a second time changes nothing at all: the state after
    the second call is the state after the first, whether or not the id was
    pending to begin with. *)
Theorem reject_twice (st : State) (docUri : string) (id : Z) :
  NoDup (PendingChange.id <$> pendingOf st docUri) ->
  reject (reject st docUri id) docUri id = reject st docUri id.
Proof.
  intros Hnd.
  destruct (decide (id ∈ (PendingChange.id <$> pendingOf st docUri))) as [Hin|Hout].
  - rewrite (reject_known st docUri id (pendingOf st docUri)); try done;
      [|by apply (pendingOf_Some _ _ id)].
    apply reject_unknown. rewrite pendingOf_rejectedTo.
    intros H. by apply filter_ids_subseteq in H as [? _].
  - by rewrite !(reject_unknown st docUri id Hout).
Qed.

Lemma reject_twice_witness :
  reject (reject Scenario.reviewing5 Scenario.uri 1) Scenario.uri 1
  = reject Scenario.reviewing5 Scenario.uri 1.
Proof.
  apply (reject_twice Scenario.reviewing5 Scenario.uri 1).
  apply (bool_decide_unpack _). vm_compute. exact I.
Defined.

(** X19 — reject. With pairwise different ids in the document's list, two
    rejections in the same document commute: either order leaves the same
    state, decorations included. *)
Theorem rejects_commute (st : State) (docUri : string) (a b : Z) :
  NoDup (PendingChange.id <$> pendingOf st docUri) ->
  reject (reject st docUri a) docUri b = reject (reject st docUri b) docUri a.
Proof.
  intros Hnd. set (pending := pendingOf st docUri) in *.
  destruct (decide (a = b)) as [->|Hab]; [done|].
  assert (Hone : forall x y : Z,
             x <> y ->
             x ∈ (PendingChange.id <$> pending) ->
             y ∉ (PendingChange.id <$> pending) ->
             reject (reject st docUri x) docUri y = reject (reject st docUri y) docUri x).
  { intros x y Hxy Hx Hy.
    rewrite (reject_unknown st docUri y Hy).
    apply reject_unknown.
    rewrite (reject_known st docUri x pending); try done;
      [|by apply (pendingOf_Some _ _ x)].
    rewrite pendingOf_rejectedTo.
    intros H. by apply filter_ids_subseteq in H as [_ ?]. }
  destruct (decide (a ∈ (PendingChange.id <$> pending))) as [Ha|Ha];
    destruct (decide (b ∈ (PendingChange.id <$> pending))) as [Hb|Hb].
  - assert (Hboth : forall x y : Z,
               x <> y ->
               x ∈ (PendingChange.id <$> pending) ->
               y ∈ (PendingChange.id <$> pending) ->
               reject (reject st docUri x) docUri y
               = rejectedTo st docUri
                   (filter (fun c => PendingChange.id c <> y)
                      (filter (fun c => PendingChange.id c <> x) pending))).
    { intros x y Hxy Hx Hy.
      rewrite (reject_known st docUri x pending); try done;
        [|by apply (pendingOf_Some _ _ x)].
      assert (y ∈ (PendingChange.id
                     <$> filter (fun c => PendingChange.id c <> x) pending)) as Hy'.
      { apply list_elem_of_fmap in Hy as (c & -> & Hc).
        apply list_elem_of_fmap. exists c. split; [done|].
        apply list_elem_of_filter. split; [|done]. congruence. }
      rewrite (reject_known _ docUri y
                 (filter (fun c => PendingChange.id c <> x) pending)).
      - apply rejectedTo_twice.
      - by apply (rejectedTo_Some _ _ _ y).
      - by apply filter_ids_NoDup.
      - done. }
    rewrite (Hboth a b), (Hboth b a) by done. f_equal.
    rewrite !list_filter_filter. apply list_filter_iff. intros c. tauto.
  - by apply Hone.
  - symmetry. by apply Hone.
  - by rewrite !(reject_unknown st docUri a Ha), !(reject_unknown st docUri b Hb),
      (reject_unknown st docUri a Ha).
Qed.

Lemma rejects_commute_witness :
  reject (reject Scenario.reviewing5 Scenario.uri 1) Scenario.uri 2
  = reject (reject Scenario.reviewing5 Scenario.uri 2) Scenario.uri 1.
Proof.
  apply (rejects_commute Scenario.reviewing5 Scenario.uri 1 2).
  apply (bool_decide_unpack _). vm_compute. exact I.
Defined.

(** ** Accepting: the second call, the last change, the stuck change *)

Lemma NoDup_ids_middle (pre post : list PendingChange.t) (A : PendingChange.t) :
  NoDup (PendingChange.id <$> (pre ++ A :: post)) ->
  Forall (fun c => PendingChange.id c <> PendingChange.id A) pre
  /\ PendingChange.id A ∉ (PendingChange.id <$> (pre ++ post)).
Proof.
  rewrite !fmap_app, fmap_cons. intros Hnd.
  apply NoDup_app in Hnd as (_ & Hpre & Hpost).
  apply NoDup_cons in Hpost as [Hpost _]. split.
  - apply Forall_forall. intros c Hc Heq. apply (Hpre (PendingChange.id c)).
    + apply list_elem_of_fmap. by exists c.
    + rewrite Heq. by left.
  - rewrite elem_of_app. intros [H|H]; [|done].
    apply (Hpre (PendingChange.id A)); [done|by left].
Qed.

Lemma shift_ids (delta : Z) (l : list PendingChange.t) :
  PendingChange.id <$> (shift delta <$> l) = PendingChange.id <$> l.
Proof. induction l as [|c l IH]; [done|]. cbn. by rewrite <- IH. Qed.

(** X20 — accept. With pairwise different ids, accepting a change that has
    been accepted (the edit applied or not applied, the later changes
    re-anchored) a second time changes nothing: the edit is not made twice
    and no change moves again. *)
Theorem accept_twice (host host' : EditOutcome) (st : State) (docUri : string)
    (doc : Document) (pre post : list PendingChange.t) (A : PendingChange.t) :
  pendingByDoc st !! docUri = Some (pre ++ A :: post) ->
  NoDup (PendingChange.id <$> (pre ++ A :: post)) ->
  documents st !! docUri = Some doc ->
  host <> EditRejected ->
  Forall (movable (lineDelta A)) post ->
  accept host' (accept host st docUri (PendingChange.id A)) docUri (PendingChange.id A)
  = accept host st docUri (PendingChange.id A).
Proof.
  intros Hp Hnd Hdoc Hhost Hpost.
  destruct (NoDup_ids_middle _ _ _ Hnd) as [Hpre Hout].
  destruct (accept_resolved host st docUri doc pre post A Hp Hpre Hdoc Hhost Hpost)
    as [Hlist _].
  apply accept_unknown. rewrite Hlist.
  rewrite fmap_app, shift_ids, <- fmap_app. exact Hout.
Qed.

Lemma accept_twice_witness :
  accept EditNotApplied
    (accept EditApplied Scenario.reviewing5 Scenario.uri 1) Scenario.uri 1
  = accept EditApplied Scenario.reviewing5 Scenario.uri 1.
Proof.
  apply (accept_twice EditApplied EditNotApplied Scenario.reviewing5 Scenario.uri
           Scenario.local5 [] [Scenario.removal2] Scenario.removal1).
  - reflexivity.
  - apply (bool_decide_unpack _). vm_compute. exact I.
  - reflexivity.
  - discriminate.
  - repeat constructor; vm_compute; congruence.
Defined.

(** X21 — accept, the re-anchoring loop. When the change right after the
    accepted one cannot be moved, its start line plus the line delta being
    negative, the range constructor throws after the edit has been made:
    the document is edited, the accepted change is still pending with all
    the others, the decorations are not repainted, and the exception is
    logged. *)
Theorem accept_stops_at_unmovable (st : State) (docUri : string) (doc : Document)
    (pre post : list PendingChange.t) (A B : PendingChange.t) :
  pendingByDoc st !! docUri = Some (pre ++ A :: B :: post) ->
  Forall (fun c => PendingChange.id c <> PendingChange.id A) pre ->
  documents st !! docUri = Some doc ->
  line (start (PendingChange.range B)) + lineDelta A < 0 ->
  let st' := accept EditApplied st docUri (PendingChange.id A) in
  documents st' !! docUri = Some (applyEdit doc (editOf A))
  /\ pendingByDoc st' !! docUri = Some (pre ++ A :: B :: post)
  /\ painted st' = painted st
  /\ infoMessages st' = infoMessages st
  /\ consoleErrors st' = consoleErrors st ++ [IllegalArgument].
Proof.
  intros Hp Hpre Hdoc Hneg. unfold accept.
  rewrite Hp, (findIndex_middle _ _ _ Hpre), list_lookup_middle by done.
  rewrite Hdoc.
  replace (drop (S (length pre)) (pre ++ A :: B :: post)) with (B :: post); cycle 1.
  { rewrite (cons_middle A pre (B :: post)), app_assoc.
    symmetry. apply drop_app_length'. rewrite length_app. simpl. lia. }
  replace (take (S (length pre)) (pre ++ A :: B :: post)) with (pre ++ [A]); cycle 1.
  { rewrite (cons_middle A pre (B :: post)), app_assoc.
    symmetry. apply take_app_length'. rewrite length_app. simpl. lia. }
  cbn [reanchor]. unfold shiftedRange, newRange4, newPosition.
  replace (line (start (PendingChange.range B)) + lineDelta A <? 0) with true
    by (symmetry; apply Z.ltb_lt; lia).
  cbn [orb mbind Result_bind fst snd].
  rewrite <- app_assoc. cbn [app].
  cbn. rewrite !lookup_insert_eq. done.
Qed.

Lemma accept_stops_at_unmovable_witness :
  let st' := accept EditApplied Cases.reviewingTop2 Scenario.uri 1 in
  documents st' !! Scenario.uri
  = Some (applyEdit Scenario.local3 (editOf Cases.top1))
  /\ pendingByDoc st' !! Scenario.uri = Some ([] ++ Cases.top1 :: Cases.top2 :: [])
  /\ painted st' = painted Cases.reviewingTop2
  /\ infoMessages st' = infoMessages Cases.reviewingTop2
  /\ consoleErrors st' = consoleErrors Cases.reviewingTop2 ++ [IllegalArgument].
Proof.
  apply (accept_stops_at_unmovable Cases.reviewingTop2 Scenario.uri Scenario.local3
           [] [] Cases.top1 Cases.top2).
  - reflexivity.
  - constructor.
  - reflexivity.
  - vm_compute. reflexivity.
Defined.

(** X22 — accept. The message that all changes of the file are accepted is
    shown only by a call that has removed the document's entry from the
    store and cleared its decorations; any other call shows no message. *)
Theorem accept_notifies_only_when_done (host : EditOutcome) (st : State)
    (docUri : string) (id : Z) :
  infoMessages (accept host st docUri id) = infoMessages st
  \/ (infoMessages (accept host st docUri id) = infoMessages st ++ [allAccepted]
      /\ pendingByDoc (accept host st docUri id) !! docUri = None
      /\ painted (accept host st docUri id) !! docUri = Some noDecos).
Proof.
  unfold accept.
  destruct (pendingByDoc st !! docUri) as [pending|]; [|by left].
  destruct (findIndex id pending) as [idx|]; [|by left].
  destruct (pending !! idx) as [ch|]; [|by left].
  destruct (documents st !! docUri) as [doc|]; [|by left].
  destruct (reanchor (lineDelta ch) (drop (S idx) pending)) as [l [e|]];
    cbn [fst snd].
  - destruct host; by left.
  - destruct (delete idx (take (S idx) pending ++ l)) as [|c rest];
      destruct host; try (by left); right; cbn;
      by rewrite lookup_delete_eq, lookup_insert_eq.
Qed.

(** X23 — accept of the last pending change. When the change is the only
    one of its document and the host does not reject the edit, the
    document's entry leaves the store, the decorations of the document are
    cleared, the editor is shown and the message that all changes are
    accepted is shown once. *)
Theorem accept_last_completes (host : EditOutcome) (st : State) (docUri : string)
    (doc : Document) (ch : PendingChange.t) :
  pendingByDoc st !! docUri = Some [ch] ->
  documents st !! docUri = Some doc ->
  host <> EditRejected ->
  let st' := accept host st docUri (PendingChange.id ch) in
  pendingByDoc st' !! docUri = None
  /\ painted st' !! docUri = Some noDecos
  /\ docUri ∈ visibleTextEditors st'
  /\ infoMessages st' = infoMessages st ++ [allAccepted]
  /\ documents st' !! docUri
     = Some (match host with
             | EditApplied => applyEdit doc (editOf ch)
             | _ => doc
             end).
Proof.
  intros Hp Hdoc Hhost. unfold accept. rewrite Hp.
  pose proof (findIndex_middle [] [] ch (Forall_nil_2 _)) as Hf.
  cbn [app length] in Hf. rewrite Hf.
  cbn [length lookup list_lookup]. rewrite Hdoc.
  destruct host; [| |done]; cbn;
    rewrite ?lookup_delete_eq, ?lookup_insert_eq; repeat split; set_solver.
Qed.

Lemma accept_last_completes_witness :
  let st' := accept EditApplied Scenario.reviewingB Scenario.uri 1 in
  pendingByDoc st' !! Scenario.uri = None
  /\ painted st' !! Scenario.uri = Some noDecos
  /\ Scenario.uri ∈ visibleTextEditors st'
  /\ infoMessages st' = infoMessages Scenario.reviewingB ++ [allAccepted]
  /\ documents st' !! Scenario.uri
     = Some (applyEdit Scenario.local3 (editOf Scenario.replacement)).
Proof.
  apply (accept_last_completes EditApplied Scenario.reviewingB Scenario.uri
           Scenario.local3 Scenario.replacement).
  - reflexivity.
  - reflexivity.
  - discriminate.
Defined.

(** ** No empty list in the store *)

Lemma walk_nonempty (rev : Revision) (doc : Document) (docUri : string)
    (diffs : list Diff.ChangeObject) :
  forall (li nextId : Z) (m : Marked),
    differs diffs = true ->
    walk rev doc docUri diffs li nextId = Ok m ->
    markedPending m <> [].
Proof.
  induction diffs as [|part rest IH IH'] using walk_ind; intros li nextId m Hd H;
    [discriminate|].
  destruct (walk_cons_inv _ _ _ _ _ _ _ _ H)
    as [next rest' cd m' -> _ _ Hcd Hw ->|cd m' _ Hcd Hw ->|cd m' _ _ Hcd Hw ->|Hr Ha Hw];
    try done.
  unfold differs in *. cbn [existsb] in Hd. rewrite Hr, Ha in Hd.
  by apply IH in Hw.
Qed.

Lemma storeList_noEmpty (docUri : string) (l : list PendingChange.t)
    (m : gmap string (list PendingChange.t)) :
  (forall uri, m !! uri <> Some []) ->
  forall uri, storeList docUri l m !! uri <> Some [].
Proof.
  intros Hm uri. destruct (decide (uri = docUri)) as [->|Hne].
  - destruct l; cbn [storeList]; [by rewrite lookup_delete_eq|by rewrite lookup_insert_eq].
  - by rewrite storeList_lookup_ne.
Qed.

Lemma accept_store (host : EditOutcome) (st : State) (docUri : string) (id : Z) :
  pendingByDoc (accept host st docUri id) = pendingByDoc st
  \/ exists l, pendingByDoc (accept host st docUri id)
               = storeList docUri l (pendingByDoc st).
Proof.
  unfold accept.
  destruct (pendingByDoc st !! docUri) as [pending|]; [|by left].
  destruct (findIndex id pending) as [idx|]; [|by left].
  destruct (pending !! idx) as [ch|] eqn:Hch; [|by left].
  destruct (documents st !! docUri) as [doc|]; [|by left].
  destruct (reanchor (lineDelta ch) (drop (S idx) pending)) as [l [e|]];
    cbn [fst snd].
  - destruct pending as [|c pending]; [done|]. cbn [take app].
    destruct host; [right|right|by left];
      by exists (c :: take idx pending ++ l).
  - destruct host; [right|right|by left];
      exists (delete idx (take (S idx) pending ++ l));
      by destruct (delete idx (take (S idx) pending ++ l)).
Qed.

Lemma reject_store (st : State) (docUri : string) (id : Z) :
  pendingByDoc (reject st docUri id) = pendingByDoc st
  \/ exists l, pendingByDoc (reject st docUri id)
               = storeList docUri l (pendingByDoc st).
Proof.
  unfold reject.
  destruct (pendingByDoc st !! docUri) as [pending|]; [|by left].
  destruct (findIndex id pending) as [idx|]; [|by left].
  right. exists (delete idx pending). by destruct (decide _).
Qed.

Lemma step_noEmpty (st : State) (c : Command) :
  noEmptyEntry st -> noEmptyEntry (step st c).1.
Proof.
  unfold noEmptyEntry. intros Hst.
  destruct c as [rev docUri diffs|host docUri id|docUri id|docUri]; cbn [step].
  - destruct (existsb _ diffs) eqn:Hd; [|done].
    destruct (documents st !! docUri) as [doc|] eqn:Hdoc; [|done].
    destruct (markChanges rev (show_editor docUri st) docUri diffs) as [st'|e] eqn:E;
      [|done].
    unfold markChanges in E. cbn [documents show_editor] in E. rewrite Hdoc in E.
    bind_inv E. rename a into m. injection E as <-.
    apply walk_nonempty in Ha; [|exact Hd].
    intros uri. cbn. destruct (decide (uri = docUri)) as [->|Hne].
    + rewrite lookup_insert_eq. congruence.
    + by rewrite lookup_insert_ne.
  - cbn [fst]. destruct (accept_store host st docUri id) as [->|[l ->]]; [done|].
    by apply storeList_noEmpty.
  - cbn [fst]. destruct (reject_store st docUri id) as [->|[l ->]]; [done|].
    by apply storeList_noEmpty.
  - destruct (refreshDecorationsFor st docUri) as [st'|e] eqn:E; [|done].
    unfold refreshDecorationsFor in E.
    destruct (decide _); [|by injection E as <-].
    destruct (documents st !! docUri); [|by injection E as <-].
    bind_inv E. by injection E as <-.
Qed.

(** X24 — the store. Along any run of pull, accept, reject and refresh
    commands, no entry of the store is the empty list: a document has an
    entry exactly while it has pending changes, provided the run starts
    from such a store (the empty store of a fresh process is one). *)
Theorem run_no_empty_entry (st : State) (cs : list Command) :
  noEmptyEntry st -> noEmptyEntry (run st cs).1.
Proof.
  revert st. induction cs as [|c cs IH]; intros st Hst; [done|].
  cbn [run fst]. apply IH. by apply step_noEmpty.
Qed.

Lemma run_no_empty_entry_witness :
  noEmptyEntry
    (run (Scenario.fresh Scenario.local5)
       [Pull TrimAtTop Scenario.uri Scenario.diffs5;
        AcceptChange EditApplied Scenario.uri 2;
        RejectChange Scenario.uri 1]).1.
Proof.
  apply (run_no_empty_entry (Scenario.fresh Scenario.local5)).
  intros uri. vm_compute. discriminate.
Defined.

(** ** One document at a time *)

(** X25 — accept and reject. A command for one document leaves every other
    document alone: its entry in the store, its text and its decorations
    are as they were, whatever the host answers and whether or not the
    command fails on the way. *)
Theorem resolve_leaves_other_documents (host : EditOutcome) (st : State)
    (docUri other : string) (id : Z) :
  other <> docUri ->
  (pendingByDoc (accept host st docUri id) !! other = pendingByDoc st !! other
   /\ documents (accept host st docUri id) !! other = documents st !! other
   /\ painted (accept host st docUri id) !! other = painted st !! other)
  /\ (pendingByDoc (reject st docUri id) !! other = pendingByDoc st !! other
      /\ documents (reject st docUri id) !! other = documents st !! other
      /\ painted (reject st docUri id) !! other = painted st !! other).
Proof.
  intros Hne. split.
  - unfold accept.
    destruct (pendingByDoc st !! docUri) as [pending|]; [|done].
    destruct (findIndex id pending) as [idx|]; [|done].
    destruct (pending !! idx) as [ch|]; [|done].
    destruct (documents st !! docUri) as [doc|]; [|done].
    destruct (reanchor (lineDelta ch) (drop (S idx) pending)) as [l [e|]];
      cbn [fst snd].
    + destruct host; cbn; rewrite ?lookup_insert_ne by done; done.
    + destruct (delete idx (take (S idx) pending ++ l)) as [|c rest];
        destruct host; cbn;
        rewrite ?lookup_insert_ne, ?lookup_delete_ne by done; done.
  - unfold reject.
    destruct (pendingByDoc st !! docUri) as [pending|]; [|done].
    destruct (findIndex id pending) as [idx|]; [|done].
    destruct (decide _); cbn; rewrite ?storeList_lookup_ne by done;
      rewrite ?lookup_insert_ne by done; done.
Qed.

Lemma resolve_leaves_other_documents_witness :
  (pendingByDoc (accept EditApplied Scenario.reviewing5 Scenario.uri 1) !! Cases.home
   = pendingByDoc Scenario.reviewing5 !! Cases.home
   /\ documents (accept EditApplied Scenario.reviewing5 Scenario.uri 1) !! Cases.home
      = documents Scenario.reviewing5 !! Cases.home
   /\ painted (accept EditApplied Scenario.reviewing5 Scenario.uri 1) !! Cases.home
      = painted Scenario.reviewing5 !! Cases.home)
  /\ (pendingByDoc (reject Scenario.reviewing5 Scenario.uri 1) !! Cases.home
      = pendingByDoc Scenario.reviewing5 !! Cases.home
      /\ documents (reject Scenario.reviewing5 Scenario.uri 1) !! Cases.home
         = documents Scenario.reviewing5 !! Cases.home
      /\ painted (reject Scenario.reviewing5 Scenario.uri 1) !! Cases.home
         = painted Scenario.reviewing5 !! Cases.home).
Proof.
  apply (resolve_leaves_other_documents EditApplied Scenario.reviewing5 Scenario.uri
           Cases.home 1).
  discriminate.
Defined.
